(** * Vision system: file staging, rectangle extraction and coordinate files

    A shallow embedding of the watcher scripts of the repository
    ([image rename], [image processing.py], [code 2.py] and
    [moment of truth.py]) together with the properties their
    specification states about them.

    Conventions of the model.
    - Python [int] is [Z]. A Python [str] is the [string] of the bytes of
      its UTF-8 encoding. Concatenation, the search for an ASCII substring
      and the split at an ASCII character act on the encoding as they act
      on the text, since no byte of a character outside ASCII is an ASCII
      byte. [str.isdigit] and [int] look at the characters: the model
      decodes the bytes and consults the digit tables of the Unicode
      character database (version 14.0, the one of CPython 3.11).
      [str.lower] is modelled on the ASCII letters only: the scripts lower
      an extension to compare it with ASCII extensions, and no extension
      with a character outside ASCII is lowered to one of those (the one
      character outside ASCII that is lowered to ASCII is the Kelvin sign,
      to the letter k).
    - A path is a pair (directory, base name): [os.path.split] returns its
      two components, [os.path.join] builds it, [os.path.basename] and
      [os.path.dirname] project it.
    - The float values returned by OpenCV (perimeters, moments) are
      rationals [Q]; [int(x)] on them truncates toward zero.
    - Durations are whole milliseconds.
    - The OpenCV geometry primitives ([findContours], [arcLength],
      [approxPolyDP], [moments]) and the operating system's answers
      ([os.path.exists], [os.rename]) are inputs of the model. *)

From Stdlib Require Import ZArith QArith Ascii String DecimalString DecimalZ DecimalPos Lia.
From stdpp Require Import gmap strings list sorting.

Local Open Scope Z_scope.

(* ===================================================================== *)
(** * Part I. The model                                                  *)
(* ===================================================================== *)

(** ** Python built-ins used by the scripts *)

Module Py.

(** [str(n)] for an [int]: the decimal numeral, ["-"] in front of a
    negative one. *)
Definition str (n : Z) : string := NilZero.string_of_int (Z.to_int n).

(** The ASCII digits ['0'..'9']. *)
Definition is_digit (c : ascii) : bool :=
  match c with
  | "0" | "1" | "2" | "3" | "4" | "5" | "6" | "7" | "8" | "9" => true
  | _ => false
  end%char.

(** Every byte of [s] satisfies [p]. *)
Fixpoint all_chars (p : ascii -> bool) (s : string) : bool :=
  match s with
  | EmptyString => true
  | String c s' => p c && all_chars p s'
  end.

Definition all_digits (s : string) : bool := all_chars is_digit s.

(** A byte that is a character by itself. *)
Definition is_ascii (c : ascii) : bool := (N_of_ascii c <? 128)%N.

(** The six value bits of a continuation byte [10xxxxxx]. *)
Definition continuation (c : ascii) : option N :=
  let b := N_of_ascii c in
  if (128 <=? b)%N && (b <? 192)%N then Some (b - 128)%N else None.

(** The characters of a text, as code points. The result is [None] when
    the bytes are not the UTF-8 encoding of a sequence of characters: an
    encoding longer than needed, a surrogate, a value above U+10FFFF, a
    misplaced or missing continuation byte. A file name that is not well
    formed reaches Python as a [str] with lone surrogates in it. *)
Fixpoint code_points (s : string) : option (list N) :=
  match s with
  | EmptyString => Some []
  | String c0 s1 =>
      let b0 := N_of_ascii c0 in
      if (b0 <? 128)%N then cons b0 <$> code_points s1
      else if (b0 <? 192)%N then None
      else if (b0 <? 224)%N then
        match s1 with
        | String c1 s2 =>
            x1 ← continuation c1;
            let cp := ((b0 - 192) * 64 + x1)%N in
            if (cp <? 128)%N then None else cons cp <$> code_points s2
        | _ => None
        end
      else if (b0 <? 240)%N then
        match s1 with
        | String c1 (String c2 s3) =>
            x1 ← continuation c1; x2 ← continuation c2;
            let cp := (((b0 - 224) * 64 + x1) * 64 + x2)%N in
            if (cp <? 2048)%N || (55296 <=? cp)%N && (cp <? 57344)%N then None
            else cons cp <$> code_points s3
        | _ => None
        end
      else if (b0 <? 248)%N then
        match s1 with
        | String c1 (String c2 (String c3 s4)) =>
            x1 ← continuation c1; x2 ← continuation c2; x3 ← continuation c3;
            let cp := ((((b0 - 240) * 64 + x1) * 64 + x2) * 64 + x3)%N in
            if (cp <? 65536)%N || (1114112 <=? cp)%N then None
            else cons cp <$> code_points s4
        | _ => None
        end
      else None
  end.

(** The characters of Numeric_Type=Decimal (general category Nd), as
    ranges of code points: each range is made of runs of the ten digits
    0..9 in ascending order. *)
Definition decimal_ranges : list (N * N) :=
  [(0x30, 0x39); (0x660, 0x669); (0x6F0, 0x6F9); (0x7C0, 0x7C9);
   (0x966, 0x96F); (0x9E6, 0x9EF); (0xA66, 0xA6F); (0xAE6, 0xAEF);
   (0xB66, 0xB6F); (0xBE6, 0xBEF); (0xC66, 0xC6F); (0xCE6, 0xCEF);
   (0xD66, 0xD6F); (0xDE6, 0xDEF); (0xE50, 0xE59); (0xED0, 0xED9);
   (0xF20, 0xF29); (0x1040, 0x1049); (0x1090, 0x1099); (0x17E0, 0x17E9);
   (0x1810, 0x1819); (0x1946, 0x194F); (0x19D0, 0x19D9); (0x1A80, 0x1A89);
   (0x1A90, 0x1A99); (0x1B50, 0x1B59); (0x1BB0, 0x1BB9); (0x1C40, 0x1C49);
   (0x1C50, 0x1C59); (0xA620, 0xA629); (0xA8D0, 0xA8D9); (0xA900, 0xA909);
   (0xA9D0, 0xA9D9); (0xA9F0, 0xA9F9); (0xAA50, 0xAA59); (0xABF0, 0xABF9);
   (0xFF10, 0xFF19); (0x104A0, 0x104A9); (0x10D30, 0x10D39);
   (0x11066, 0x1106F); (0x110F0, 0x110F9); (0x11136, 0x1113F);
   (0x111D0, 0x111D9); (0x112F0, 0x112F9); (0x11450, 0x11459);
   (0x114D0, 0x114D9); (0x11650, 0x11659); (0x116C0, 0x116C9);
   (0x11730, 0x11739); (0x118E0, 0x118E9); (0x11950, 0x11959);
   (0x11C50, 0x11C59); (0x11D50, 0x11D59); (0x11DA0, 0x11DA9);
   (0x16A60, 0x16A69); (0x16AC0, 0x16AC9); (0x16B50, 0x16B59);
   (0x1D7CE, 0x1D7FF); (0x1E140, 0x1E149); (0x1E2F0, 0x1E2F9);
   (0x1E950, 0x1E959); (0x1FBF0, 0x1FBF9)]%N.

(** The characters of Numeric_Type=Digit: superscripts and subscripts,
    circled, parenthesized and dotted digits and the like. They are digits
    for [str.isdigit] and have no decimal value. *)
Definition other_digit_ranges : list (N * N) :=
  [(0xB2, 0xB3); (0xB9, 0xB9); (0x1369, 0x1371); (0x19DA, 0x19DA);
   (0x2070, 0x2070); (0x2074, 0x2079); (0x2080, 0x2089); (0x2460, 0x2468);
   (0x2474, 0x247C); (0x2488, 0x2490); (0x24EA, 0x24EA); (0x24F5, 0x24FD);
   (0x24FF, 0x24FF); (0x2776, 0x277E); (0x2780, 0x2788); (0x278A, 0x2792);
   (0x10A40, 0x10A43); (0x10E60, 0x10E68); (0x11052, 0x1105A);
   (0x1F100, 0x1F10A)]%N.

Definition in_range (c : N) (r : N * N) : bool := (r.1 <=? c)%N && (c <=? r.2)%N.

(** [unicodedata.decimal(c)]; [None] when the character has no decimal
    value. *)
Definition decimal (c : N) : option N :=
  (λ r : N * N, ((c - r.1) mod 10)%N) <$> List.find (in_range c) decimal_ranges.

(** [c.isdigit()] for one character: Numeric_Type is Decimal or Digit. *)
Definition digit_char (c : N) : bool :=
  existsb (in_range c) decimal_ranges || existsb (in_range c) other_digit_ranges.

(** [s.isdigit()]: at least one character and every character a digit. *)
Definition isdigit (s : string) : bool :=
  match code_points s with
  | Some (c :: cs) => forallb digit_char (c :: cs)
  | _ => false
  end.

(** What [int] makes of a character before it reads the numeral: a
    character with a decimal value becomes the ASCII digit of that value,
    any other character outside ASCII becomes ['?']. *)
Definition literal_char (c : N) : ascii :=
  match decimal c with
  | Some d => ascii_of_N (48 + d)
  | None => if (c <? 128)%N then ascii_of_N c else "?"%char
  end.

(** [int(s)] on a numeral of decimal digits with an optional minus sign;
    [None] stands for [ValueError]. White space around the numeral, a plus
    sign and underscores between digits, which [int] accepts as well, are
    not modelled: under the [isdigit] test of the stager none can occur. *)
Definition int (s : string) : option Z :=
  cps ← code_points s;
  Z.of_int <$> NilZero.int_of_string (string_of_list_ascii (literal_char <$> cps)).

(** [max(l)] of a non-empty list; [None] stands for the [ValueError] that
    [max([])] raises. *)
Definition max (l : list Z) : option Z :=
  match l with
  | [] => None
  | x :: l' => Some (foldl Z.max x l')
  end.

(** [s.lower()] on the ASCII letters; the bytes of the other characters
    are left as they are. *)
Definition lower_char (c : ascii) : ascii :=
  let n := nat_of_ascii c in
  if (65 <=? n)%nat && (n <=? 90)%nat then ascii_of_nat (n + 32) else c.

Fixpoint lower (s : string) : string :=
  match s with
  | EmptyString => EmptyString
  | String c s' => String (lower_char c) (lower s')
  end.

(** [needle in hay]. *)
Fixpoint contains (needle hay : string) : bool :=
  String.prefix needle hay ||
  match hay with
  | EmptyString => false
  | String _ hay' => contains needle hay'
  end.

(** [s.split(sep)[0]] for a one-character separator: everything before
    the first [sep], the whole string when there is none. *)
Fixpoint split_head (sep : ascii) (s : string) : string :=
  match s with
  | EmptyString => EmptyString
  | String c s' => if Ascii.eqb c sep then EmptyString else String c (split_head sep s')
  end.

(** The slices [s[:n]] and [s[n:]]. *)
Fixpoint slice_to (n : nat) (s : string) : string :=
  match n, s with
  | S n', String c s' => String c (slice_to n' s')
  | _, _ => EmptyString
  end.

Fixpoint slice_from (n : nat) (s : string) : string :=
  match n, s with
  | S n', String _ s' => slice_from n' s'
  | _, _ => s
  end.

(** [s.rfind(c)]: index of the last occurrence; [None] stands for -1. *)
Fixpoint rfind (c : ascii) (s : string) : option nat :=
  match s with
  | EmptyString => None
  | String a s' =>
      match rfind c s' with
      | Some i => Some (S i)
      | None => if Ascii.eqb a c then Some 0%nat else None
      end
  end.

Definition is_dot (c : ascii) : bool := Ascii.eqb c "."%char.

Definition all_dots (s : string) : bool := all_chars is_dot s.

(** [os.path.splitext] on a base name (no directory separator in it):
    the extension starts at the last dot, unless only dots come before
    that dot, in which case there is no extension. *)
Definition splitext (p : string) : string * string :=
  match rfind "."%char p with
  | Some dotIndex =>
      if all_dots (slice_to dotIndex p) then (p, EmptyString)
      else (slice_to dotIndex p, slice_from dotIndex p)
  | None => (p, EmptyString)
  end.

(** The shape of every extension [splitext] returns: empty, or one dot
    followed by characters that are not dots. *)
Definition is_extension (e : string) : bool :=
  match e with
  | EmptyString => true
  | String c e' => is_dot c && all_chars (λ a, negb (is_dot a)) e'
  end.

(** The characters [str] produces. *)
Definition is_numeral_char (c : ascii) : bool := is_digit c || Ascii.eqb c "-"%char.

End Py.

(** A path: directory and base name. *)
Abbreviation path := (string * string)%type.

Definition join (directory name : string) : path := (directory, name).
Definition dirname (p : path) : string := fst p.
Definition basename (p : path) : string := snd p.

(** ** The File Stager: [ImageRenameHandler] *)

Module Stager.

(** *** [wait_for_file]

    What the loop sees of the outside world: the answer of the [k]-th
    call of [os.path.exists(file_path)], and by how many milliseconds the
    [k]-th [time.sleep(0.5)] overslept (a sleep never returns early). *)
Record wait_env : Type := {
  exists_at : nat -> bool;
  lag : nat -> N
}.

Definition poll_ms : Z := 500.

(** Result of the wait: the returned boolean, the number of sleeps made
    and the value of [time.time() - start_time] at the return. *)
Record wait_result : Type := {
  found : bool;
  sleeps : nat;
  waited_ms : Z
}.

(** The [while not os.path.exists(file_path)] loop; [k] counts the
    iterations made, [elapsed] is [time.time() - start_time]. *)
Fixpoint wait_loop (w : wait_env) (timeout_ms : Z) (fuel k : nat) (elapsed : Z)
  : option wait_result :=
  match fuel with
  | O => None
  | S fuel' =>
      if exists_at w k then
        Some {| found := true; sleeps := k; waited_ms := elapsed |}
      else
        let elapsed' := elapsed + poll_ms + Z.of_N (lag w k) in
        if timeout_ms <? elapsed' then
          Some {| found := false; sleeps := S k; waited_ms := elapsed' |}
        else wait_loop w timeout_ms fuel' (S k) elapsed'
  end.

(** Iterations that are always enough for a timeout given in seconds. *)
Definition wait_fuel (timeout : Z) : nat := Z.to_nat (2 * timeout) + 2.

Definition wait_for_file (w : wait_env) (timeout : Z) : option wait_result :=
  wait_loop w (timeout * 1000) (wait_fuel timeout) 0 0.

(** *** Numbering *)

(** The [for f in os.listdir(folder)] loop collecting [current_numbers];
    [None] stands for a [ValueError] escaping from [int(name)]. *)
Fixpoint current_numbers (listing : list string) : option (list Z) :=
  match listing with
  | [] => Some []
  | f :: rest =>
      let '(name, f_ext) := Py.splitext f in
      if Py.isdigit name then
        n ← Py.int name; ns ← current_numbers rest; Some (n :: ns)
      else current_numbers rest
  end.

(** [max(current_numbers) + 1 if current_numbers else 1]. *)
Definition next_number (numbers : list Z) : option Z :=
  match numbers with
  | [] => Some 1
  | _ :: _ => m ← Py.max numbers; Some (m + 1)
  end.

(** *** The rename retry loop *)

(** Result of one [os.rename]: success, or an [OSError] whose [winerror]
    attribute is given ([None] when the attribute is absent). *)
Inductive rename_result : Type :=
| RenameOk
| RenameOSError (winerror : option Z).

(** What one iteration of the loop observes. *)
Record probe : Type := {
  source_exists : bool;
  rename_res : rename_result
}.

(** Every iteration that does not leave the loop increments [attempt], so
    the observations are indexed by the value of [attempt]. *)
Definition rename_env : Type := nat -> probe.

Inductive event : Type :=
| EvSourceMissing
| EvRename (r : rename_result)
| EvSleep (ms : Z).

Inductive rename_outcome : Type :=
| Renamed
| RenameFatal
| RenameExhausted.

Definition max_attempts : nat := 10.
Definition retry_sleep_ms : Z := 1000.
Definition ERROR_SHARING_VIOLATION : Z := 32.

Definition is_locked (winerror : option Z) : bool :=
  match winerror with
  | Some code => code =? ERROR_SHARING_VIOLATION
  | None => false
  end.

Fixpoint rename_loop (env : rename_env) (fuel attempt : nat)
  : option (rename_outcome * list event) :=
  match fuel with
  | O => None
  | S fuel' =>
      if (attempt <? max_attempts)%nat then
        let o := env attempt in
        if negb (source_exists o) then
          '(r, log) ← rename_loop env fuel' (S attempt);
          Some (r, EvSourceMissing :: EvSleep retry_sleep_ms :: log)
        else
          match rename_res o with
          | RenameOk => Some (Renamed, [EvRename RenameOk])
          | RenameOSError w =>
              if is_locked w then
                '(r, log) ← rename_loop env fuel' (S attempt);
                Some (r, EvRename (RenameOSError w) :: EvSleep retry_sleep_ms :: log)
              else Some (RenameFatal, [EvRename (RenameOSError w)])
          end
      else Some (RenameExhausted, [])
  end.

Definition rename_retry (env : rename_env) : option (rename_outcome * list event) :=
  rename_loop env (S max_attempts) 0.

(** Number of [os.rename] calls and total sleeping time in a log. *)
Definition rename_calls (log : list event) : nat :=
  foldr (λ e acc, match e with EvRename _ => S acc | _ => acc end) 0%nat log.

Definition slept_ms (log : list event) : Z :=
  foldr (λ e acc, match e with EvSleep ms => ms + acc | _ => acc end) 0 log.

(** *** [rename_new_image] *)

(** The two folders the stager touches, as sets of base names: the
    watched folder [self.folder] and [copied_images]. *)
Record folders : Type := {
  intake : gset string;
  copied : gset string
}.

Record stage_env : Type := {
  ren : rename_env;         (* answers to the rename loop *)
  makedirs_ok : bool;       (* [os.makedirs] did not raise *)
  copy_ok : bool;           (* [shutil.copy2] did not raise *)
  copy_left : bool;         (* a [shutil.copy2] that raised had already
                               created, or replaced, its destination *)
  gray_ok : bool            (* the grayscale conversion did not raise *)
}.

(** How a staging ends. [Raised] stands for the [ValueError] that leaves
    [rename_new_image] from the numbering, [MakedirsRaised] for the
    exception that leaves it from [os.makedirs], which no [try] encloses:
    by then the file has its new name. *)
Inductive stage_result : Type :=
| Staged (id : Z) (new_filename copy_filename : string) (gray : bool)
| CopyFailed (id : Z) (new_filename : string)
| MakedirsRaised (id : Z) (new_filename : string)
| RenameFailed (why : rename_outcome)
| FileNeverAppeared
| Raised.

Definition copy_name (new_filename : string) : string :=
  let '(name_only, ext) := Py.splitext new_filename in
  name_only +:+ "_grayscale" +:+ ext.

(** [listing] is the value of [os.listdir(folder)], [file_name] the base
    name of [file_path], which lies in [folder]. The result is [None] only
    if the retry loop runs out of fuel. *)
Definition rename_new_image (listing : list string) (st : folders)
    (file_name : string) (env : stage_env) : option (folders * stage_result) :=
  let '(_, ext) := Py.splitext file_name in
  match current_numbers listing ≫= next_number with
  | None => Some (st, Raised)
  | Some next_number =>
      let new_filename := Py.str next_number +:+ ext in
      '(outcome, log) ← rename_retry (ren env);
      match outcome with
      | Renamed =>
          let st1 := {| intake := {[new_filename]} ∪ (intake st ∖ {[file_name]});
                        copied := copied st |} in
          if makedirs_ok env then
            let copy_filename := copy_name new_filename in
            let st2 := {| intake := intake st1;
                          copied := {[copy_filename]} ∪ copied st1 |} in
            if copy_ok env then
              Some (st2, Staged next_number new_filename copy_filename (gray_ok env))
            else
              Some (if copy_left env then st2 else st1,
                    CopyFailed next_number new_filename)
          else Some (st1, MakedirsRaised next_number new_filename)
      | _ => Some (st, RenameFailed outcome)
      end
  end.

(** [on_created] for a file event: wait for the file, then stage it. *)
Definition stage (st : folders) (file_name : string) (w : wait_env) (env : stage_env)
  : option (folders * stage_result) :=
  r ← wait_for_file w 10;
  if found r then rename_new_image (elements (intake st)) st file_name env
  else Some (st, FileNeverAppeared).

(** The number the file was renamed to, if it was renamed. *)
Definition assigned_id (r : stage_result) : option Z :=
  match r with
  | Staged id _ _ _ | CopyFailed id _ | MakedirsRaised id _ => Some id
  | _ => None
  end.

(** A file landing in the watched folder, with what the handler will
    observe while staging it. *)
Record arrival : Type := {
  file_name : string;
  wenv : wait_env;
  senv : stage_env
}.

Definition land (st : folders) (name : string) : folders :=
  {| intake := {[name]} ∪ intake st; copied := copied st |}.

(** Files landing and being staged strictly one after the other:
    [on_created] is run for each of them in turn. It is run for the next
    file also after a staging that an exception has left; a watcher that
    stops at the exception makes a shorter run, the first part of this
    one. *)
Fixpoint stage_all (st : folders) (arrivals : list arrival)
  : option (folders * list stage_result) :=
  match arrivals with
  | [] => Some (st, [])
  | a :: rest =>
      '(st1, r) ← stage (land st (file_name a)) (file_name a) (wenv a) (senv a);
      '(st2, rs) ← stage_all st1 rest;
      Some (st2, r :: rs)
  end.

Definition empty_folders : folders := {| intake := ∅; copied := ∅ |}.

End Stager.

(** ** The Rectangle Extractor and the Coordinate Writer: [process_image] *)

Module Extractor.

(** A decoded single-channel 8-bit image: rows of pixel values. *)
Abbreviation image := (list (list Z)).

(** *** Segmentation: [cv2.threshold] on an 8-bit image *)

Inductive threshold_type : Type :=
| THRESH_BINARY
| THRESH_BINARY_INV.

Definition threshold_pixel (thresh maxval : Z) (type : threshold_type) (v : Z) : Z :=
  match type with
  | THRESH_BINARY => if thresh <? v then maxval else 0
  | THRESH_BINARY_INV => if thresh <? v then 0 else maxval
  end.

Definition threshold (src : image) (thresh maxval : Z) (type : threshold_type) : image :=
  (λ row : list Z, threshold_pixel thresh maxval type <$> row) <$> src.

(** [cv2.threshold(image, 50, 255, cv2.THRESH_BINARY_INV)]. *)
Definition segment (img : image) : image := threshold img 50 255 THRESH_BINARY_INV.

(** *** Border suppression

    [thresh[0, :] = 0; thresh[-1, :] = 0; thresh[:, 0] = 0; thresh[:, -1] = 0]. *)
Definition zero_row (row : list Z) : list Z := (λ _, 0) <$> row.

Definition zero_border (thresh : image) : image :=
  let t1 := alter zero_row 0%nat thresh in
  let t2 := alter zero_row (length t1 - 1)%nat t1 in
  let t3 := (λ row : list Z, <[0%nat := 0]> row) <$> t2 in
  (λ row : list Z, <[(length row - 1)%nat := 0]> row) <$> t3.

(** *** The geometry primitives consumed from OpenCV *)

Abbreviation point := (Z * Z)%type.
Abbreviation contour := (list (Z * Z)).

(** The entries of the dictionary of [cv2.moments] that the code reads. *)
Record Moments : Type := { m00 : Q; m10 : Q; m01 : Q }.

Class Geometry : Type := {
  (** [cv2.findContours(thresh, cv2.RETR_EXTERNAL, cv2.CHAIN_APPROX_SIMPLE)] *)
  findContours : image -> list contour;
  (** [cv2.arcLength(cnt, closed)] *)
  arcLength : contour -> bool -> Q;
  (** [cv2.approxPolyDP(cnt, epsilon, closed)] *)
  approxPolyDP : contour -> Q -> bool -> list point;
  (** [cv2.moments(cnt)] *)
  moments : contour -> Moments
}.

(** *** Python arithmetic on the moments *)

(** [a / b]; [None] stands for [ZeroDivisionError]. *)
Definition truediv (a b : Q) : option Q :=
  if Qeq_bool b 0 then None else Some (a / b)%Q.

(** [int(x)]: truncation toward zero. *)
Definition int_of_float (x : Q) : Z := Z.quot (Qnum x) (Z.pos (Qden x)).

Section WithGeometry.
Context `{G : Geometry}.

(** [epsilon = 0.02 * cv2.arcLength(cnt, True)]. *)
Definition epsilon (cnt : contour) : Q := ((2 # 100) * arcLength cnt true)%Q.

Definition approx (cnt : contour) : list point :=
  approxPolyDP cnt (epsilon cnt) true.

(** [len(approx) == 4]. *)
Definition is_rectangle (cnt : contour) : bool :=
  (length (approx cnt) =? 4)%nat.

(** The [for cnt in contours] loop; [None] stands for an exception
    raised in its body. *)
Fixpoint rectangle_loop (contours : list contour) (rectangle_centers : list (Z * Z))
  : option (list (Z * Z)) :=
  match contours with
  | [] => Some rectangle_centers
  | cnt :: rest =>
      if is_rectangle cnt then
        let M := moments cnt in
        if Qeq_bool (m00 M) 0 then rectangle_loop rest rectangle_centers
        else
          x ← truediv (m10 M) (m00 M);
          y ← truediv (m01 M) (m00 M);
          let cX := int_of_float x in
          let cY := int_of_float y in
          rectangle_loop rest (rectangle_centers ++ [(cX, cY)])
      else rectangle_loop rest rectangle_centers
  end.

(** From the decoded image to the list of centers. *)
Definition find_rectangles (img : image) : option (list (Z * Z)) :=
  let thresh := zero_border (segment img) in
  rectangle_loop (findContours thresh) [].
End WithGeometry.

(** *** Files *)

Inductive content : Type :=
| ImageData (img : image)     (* decodable by [cv2.imread] *)
| TextData (text : string)
| OtherData.                  (* anything [cv2.imread] returns [None] on *)

Record file : Type := { readable : bool; data : content }.

(** [cv2.imread(filepath, cv2.IMREAD_GRAYSCALE)]. *)
Definition imread (f : file) : option image :=
  match data f with
  | ImageData img => Some img
  | _ => None
  end.

Definition newline : ascii := "010"%char.

(** [f"{center[0]}, {center[1]}\n"]. *)
Definition coord_line (center : Z * Z) : string :=
  Py.str center.1 +:+ ", " +:+ Py.str center.2 +:+ String newline "".

(** What the file holds after [open(txt_filename, "w")] and one
    [f.write] per center. *)
Definition coords_text (centers : list (Z * Z)) : string :=
  foldl (λ written center, written +:+ coord_line center) "" centers.

(** The Coordinate Writer: the [with open(txt_filename, "w") as f] block. *)
Definition write_coords (fs : gmap path file) (txt_filename : path)
    (centers : list (Z * Z)) : gmap path file :=
  <[txt_filename := {| readable := true; data := TextData (coords_text centers) |}]> fs.

Inductive outcome : Type :=
| FileNotFound
| FileUnreadable
| DecodeFailed
| NoRectanglesFound
| CoordinatesSaved (txt_filename : path) (centers : list (Z * Z))
| ProcessingError.

(** The sequence of centers an outcome stands for, if it is not an error. *)
Definition centers_of (o : outcome) : option (list (Z * Z)) :=
  match o with
  | NoRectanglesFound => Some []
  | CoordinatesSaved _ centers => Some centers
  | _ => None
  end.

(** [<number>_coords.txt] next to the image, [number] being the part of
    the base name before the first underscore ([code 2.py],
    [moment of truth.py]). *)
Definition coords_path (filepath : path) : path :=
  let base_name := basename filepath in
  let number := Py.split_head "_"%char base_name in
  join (dirname filepath) (number +:+ "_coords.txt").

(** [process_image] of [code 2.py] and [moment of truth.py]. *)
Definition process_image `{G : Geometry} (fs : gmap path file) (filepath : path)
  : gmap path file * outcome :=
  match fs !! filepath with
  | None => (fs, FileNotFound)
  | Some f =>
      if negb (readable f) then (fs, FileUnreadable)
      else match imread f with
           | None => (fs, DecodeFailed)
           | Some img =>
               match find_rectangles img with
               | None => (fs, ProcessingError)
               | Some [] => (fs, NoRectanglesFound)
               | Some rectangle_centers =>
                   let txt_filename := coords_path filepath in
                   (write_coords fs txt_filename rectangle_centers,
                    CoordinatesSaved txt_filename rectangle_centers)
               end
           end
  end.

End Extractor.

(** ** The staging watcher: [ImageHandler] of [moment of truth.py] *)

Module Watch.

Record fs_event : Type := { is_directory : bool; src_path : path }.

(** [not event.is_directory and "grayscale" in os.path.basename(event.src_path)]. *)
Definition dispatches (event : fs_event) : bool :=
  negb (is_directory event) && Py.contains "grayscale" (basename (src_path event)).

Definition debounce_ms : Z := 500.

(** [on_created]: [None] when the event is dropped, otherwise the sleep
    made and the result of [process_image]. *)
Definition on_created `{G : Extractor.Geometry} (fs : gmap path Extractor.file)
    (event : fs_event) : option (Z * (gmap path Extractor.file * Extractor.outcome)) :=
  if dispatches event
  then Some (debounce_ms, Extractor.process_image fs (src_path event))
  else None.

Definition file_created (directory name : string) : fs_event :=
  {| is_directory := false; src_path := join directory name |}.

End Watch.

(** ** The global-counter intake variant: [image processing.py] *)

Module ImageProcessing.

Definition IMAGE_EXTENSIONS : list string :=
  [".jpg"; ".jpeg"; ".png"; ".bmp"; ".tiff"; ".tif"].

(** The module-level globals. *)
Record globals : Type := { image_counter : Z; text_counter : Z }.

Definition initial : globals := {| image_counter := 0; text_counter := 0 |}.

Definition is_image_ext (ext_lower : string) : bool :=
  bool_decide (ext_lower ∈ IMAGE_EXTENSIONS).

Definition get_new_filename (g : globals) (original_path : path) : globals * path :=
  let directory := dirname original_path in
  let original_name := basename original_path in
  let '(name, ext) := Py.splitext original_name in
  let ext_lower := Py.lower ext in
  if is_image_ext ext_lower then
    let g' := {| image_counter := image_counter g + 1; text_counter := text_counter g |} in
    (g', join directory ("image_" +:+ Py.str (image_counter g') +:+ ext_lower))
  else if bool_decide (ext_lower = ".txt") then
    (g, join directory ("coords_" +:+ Py.str (image_counter g) +:+ ".txt"))
  else (g, join directory original_name).

(** [<stem>_coords.txt] and [<stem>_bw<ext>] next to the image, the stem
    being the whole base name without its extension. *)
Definition coords_path (filepath : path) : path :=
  let name_without_ext := (Py.splitext (basename filepath)).1 in
  join (dirname filepath) (name_without_ext +:+ "_coords.txt").

Definition bw_path (filepath : path) : path :=
  let '(base_name, ext) := Py.splitext (basename filepath) in
  join (dirname filepath) (base_name +:+ "_bw" +:+ ext).

(** [cv2.imwrite(filename, img)] as far as the scripts can tell: [None]
    when the call returns [False] and writes nothing, otherwise the image
    that [cv2.imread] decodes from the file that is written. For a format
    without loss that is [img]; for JPEG it is an image close to it. (For
    a file name with an extension that OpenCV has no encoder for the call
    raises; the extensions that [on_created] passes on all have one, and
    that case is left out.) *)
Class Imwrite : Type := imwrite : path -> Extractor.image -> option Extractor.image.

(** The file [cv2.imwrite] leaves. *)
Definition written (saved : Extractor.image) : Extractor.file :=
  {| Extractor.readable := true; Extractor.data := Extractor.ImageData saved |}.

(** [process_image] of this variant: it also saves the mask before the
    border is cleared. *)
Definition process_image `{G : Extractor.Geometry} `{W : Imwrite}
    (fs : gmap path Extractor.file) (filepath : path)
  : gmap path Extractor.file * Extractor.outcome :=
  match fs !! filepath with
  | None => (fs, Extractor.FileNotFound)
  | Some f =>
      if negb (Extractor.readable f) then (fs, Extractor.FileUnreadable)
      else match Extractor.imread f with
           | None => (fs, Extractor.DecodeFailed)
           | Some img =>
               let thresh := Extractor.segment img in
               let bw_filename := bw_path filepath in
               let fs1 := match imwrite bw_filename thresh with
                          | Some saved => <[bw_filename := written saved]> fs
                          | None => fs
                          end in
               match Extractor.find_rectangles img with
               | None => (fs1, Extractor.ProcessingError)
               | Some [] => (fs1, Extractor.NoRectanglesFound)
               | Some rectangle_centers =>
                   let txt_filename := coords_path filepath in
                   (Extractor.write_coords fs1 txt_filename rectangle_centers,
                    Extractor.CoordinatesSaved txt_filename rectangle_centers)
               end
           end
  end.

(** The names handed out for a run of creation events, each event calling
    [get_new_filename] once. *)
Fixpoint rename_all (g : globals) (paths : list path) : globals * list path :=
  match paths with
  | [] => (g, [])
  | p :: rest =>
      let '(g1, q) := get_new_filename g p in
      let '(g2, qs) := rename_all g1 rest in
      (g2, q :: qs)
  end.

Definition is_image_path (p : path) : bool :=
  is_image_ext (Py.lower (Py.splitext (basename p)).2).

Definition is_txt_path (p : path) : bool :=
  bool_decide (Py.lower (Py.splitext (basename p)).2 = ".txt").

End ImageProcessing.

(** ** A naive reader of coordinate files

    Modelled from the spec: the naive line-parser of the round-trip
    property of the Coordinate Writer, which the scripts do not contain.
    It splits the text into lines, splits each line at [", "] and reads
    the two fields as integers. *)

Module NaiveParser.

(** The lines of a text, without their line ends. *)
Fixpoint lines (s : string) : list string :=
  match s with
  | EmptyString => []
  | String c s' =>
      if Ascii.eqb c Extractor.newline then EmptyString :: lines s'
      else match lines s' with
           | [] => [String c EmptyString]
           | l :: ls => String c l :: ls
           end
  end.

(** Split at the first comma. *)
Fixpoint break_comma (s : string) : option (string * string) :=
  match s with
  | EmptyString => None
  | String c s' =>
      if Ascii.eqb c ","%char then Some (EmptyString, s')
      else '(a, b) ← break_comma s'; Some (String c a, b)
  end.

Definition parse_line (line : string) : option (Z * Z) :=
  '(xs, rest) ← break_comma line;
  match rest with
  | String " "%char ys => x ← Py.int xs; y ← Py.int ys; Some (x, y)
  | _ => None
  end.

Fixpoint parse_lines (ls : list string) : option (list (Z * Z)) :=
  match ls with
  | [] => Some []
  | l :: rest => c ← parse_line l; cs ← parse_lines rest; Some (c :: cs)
  end.

Definition parse (text : string) : option (list (Z * Z)) := parse_lines (lines text).

(** Reading a path of the file system back. *)
Definition read_coords (fs : gmap path Extractor.file) (p : path) : option (list (Z * Z)) :=
  f ← fs !! p;
  match Extractor.data f with
  | Extractor.TextData text => parse text
  | _ => None
  end.

End NaiveParser.

(** ** Vocabulary of the statements *)

Module StagerSpec.
Import Stager.

(** The number a directory entry stands for: its base name with the
    extension stripped, when that is a non-negative decimal integer. *)
Definition numeric_stem (f : string) : option Z :=
  let name := (Py.splitext f).1 in
  if Py.isdigit name then Py.int name else None.

Definition found_numbers (listing : list string) : list Z :=
  omap numeric_stem listing.

(** A directory entry the scan cannot read: its base name without the
    extension is made of digits for [isdigit], and [int] rejects it. *)
Definition unreadable (f : string) : bool :=
  let name := (Py.splitext f).1 in
  Py.isdigit name && match Py.int name with None => true | Some _ => false end.

(** A name fit for the [k]-th file of a run: the scan can read it, and
    if it stands for a number, then for one below [k]. *)
Definition below_rank (k : Z) (f : string) : bool :=
  negb (unreadable f) &&
  match numeric_stem f with Some n => n <? k | None => true end.

(** Every arrival comes under a name fit for its rank, the first arrival
    being the [k]-th file of the run. *)
Fixpoint arrive_in_rank (k : Z) (arrivals : list Stager.arrival) : bool :=
  match arrivals with
  | [] => true
  | a :: rest => below_rank k (Stager.file_name a) && arrive_in_rank (k + 1) rest
  end.

(** Time spent in the first [n] sleeps of [wait_for_file]. *)
Fixpoint slept_until (w : wait_env) (n : nat) : Z :=
  match n with
  | O => 0
  | S n' => slept_until w n' + poll_ms + Z.of_N (lag w n')
  end.

(** Iteration [i] finds the source in place and the rename refused
    because the file is in use. *)
Definition locked_at (env : rename_env) (i : nat) : Prop :=
  source_exists (env i) = true ∧
  rename_res (env i) = RenameOSError (Some ERROR_SHARING_VIOLATION).


(** Locked for the first [k] attempts, released afterwards. *)
Definition locked_then_released (k : nat) : rename_env :=
  λ i, {| source_exists := true;
          rename_res := if (i <? k)%nat
                        then RenameOSError (Some ERROR_SHARING_VIOLATION)
                        else RenameOk |}.

(** The file of an arrival is seen by the stability wait and its rename
    goes through: the arrival is staged. *)
Definition is_staged (a : arrival) : Prop :=
  found <$> wait_for_file (wenv a) 10 = Some true ∧
  fst <$> rename_retry (ren (senv a)) = Some Renamed.

(** The name under which the file arrives is not itself a number. *)
Definition arrives_unnumbered (a : arrival) : Prop :=
  numeric_stem (file_name a) = None.

(** The largest number among the names of a folder is [k]. *)
Definition numbered_up_to (k : nat) (names : gset string) : Prop :=
  (∀ name n, name ∈ names -> numeric_stem name = Some n -> n ≤ Z.of_nat k) ∧
  (k = 0%nat ∨ ∃ name, name ∈ names ∧ numeric_stem name = Some (Z.of_nat k)).

(** The scan can read every name of a folder. *)
Definition all_readable (names : gset string) : Prop :=
  ∀ name, name ∈ names -> unreadable name = false.

Definition first_ids (n : nat) : list (option Z) :=
  (λ i, Some (Z.of_nat i)) <$> seq 1 n.

(** Staged one at a time into empty folders, the arrivals get the IDs
    1, 2, ..., N in their order. *)
Definition ids_in_arrival_order (arrivals : list arrival) : Prop :=
  ∃ st results,
    stage_all empty_folders arrivals = Some (st, results) ∧
    assigned_id <$> results = first_ids (length arrivals).

(** An environment in which nothing goes wrong. *)
Definition present : wait_env := {| exists_at := λ _, true; lag := λ _, 0%N |}.

Definition smooth : stage_env :=
  {| ren := locked_then_released 0; makedirs_ok := true; copy_ok := true;
     copy_left := false; gray_ok := true |}.

Definition arriving (name : string) : arrival :=
  {| file_name := name; wenv := present; senv := smooth |}.

End StagerSpec.

Module ExtractorSpec.
Import Extractor.

(** The pixel in row [r] and column [c]. *)
Definition pixel (img : image) (r c : nat) : option Z :=
  row ← img !! r; row !! c.

(** The center a contour contributes, if it contributes one. *)
Definition center_of `{G : Geometry} (cnt : contour) : option (Z * Z) :=
  if is_rectangle cnt then
    let M := moments cnt in
    if Qeq_bool (m00 M) 0 then None
    else Some (int_of_float (m10 M / m00 M), int_of_float (m01 M / m00 M))
  else None.

(** The test of the specification on a contour: its polygon
    approximation, taken with a tolerance of 2% of the perimeter of the
    closed contour, has exactly 4 vertices. *)
Definition four_vertices `{G : Geometry} (cnt : contour) : bool :=
  bool_decide (length (approxPolyDP cnt ((2 # 100) * arcLength cnt true) true) = 4%nat).

(** The centroid of a contour, cut to integers. *)
Definition centroid `{G : Geometry} (cnt : contour) : Z * Z :=
  let M := moments cnt in
  (int_of_float (m10 M / m00 M), int_of_float (m01 M / m00 M)).

(** What the specification has a contour contribute to the centers:
    nothing unless it passes the test; its centroid if it does, nothing
    again if its zeroth moment is zero. *)
Definition candidate_centers `{G : Geometry} (cnt : contour) : list (Z * Z) :=
  if four_vertices cnt then
    if Qeq_bool (m00 (moments cnt)) 0 then [] else [centroid cnt]
  else [].

(** [z] is [x] with its fractional part dropped. *)
Definition truncates (x : Q) (z : Z) : Prop :=
  ((0 <= x -> inject_Z z <= x ∧ x < inject_Z z + 1) ∧
   (x <= 0 -> x <= inject_Z z ∧ inject_Z z - 1 < x))%Q.

(** Turn of the path [a], [b], [c]: positive to one side, negative to
    the other. *)
Definition cross (a b c : point) : Z :=
  (b.1 - a.1) * (c.2 - b.2) - (b.2 - a.2) * (c.1 - b.1).

(** A quadrilateral is convex when it turns the same way at its four
    vertices. *)
Definition is_convex_quad (vs : list point) : bool :=
  match vs with
  | [p0; p1; p2; p3] =>
      let turns := [cross p0 p1 p2; cross p1 p2 p3; cross p2 p3 p0; cross p3 p0 p1] in
      forallb (λ t, 0 <=? t) turns || forallb (λ t, t <=? 0) turns
  | _ => false
  end.

(** Every pixel is brighter than the threshold. *)
Definition all_background (img : image) : Prop :=
  Forall (Forall (λ v, 50 < v)) img.

Definition all_zero (mask : image) : Prop :=
  Forall (Forall (λ v, v = 0)) mask.

(** A dart: a concave quadrilateral, dented at (1, 1). *)
Definition dart : contour := [(0, 0); (4, 0); (1, 1); (0, 4)].

(** A stand-in for the library on single-contour images: the mask holds
    the dart, which no vertex can be dropped from, and a two-point
    segment of no area. *)
Definition sample_geometry : Geometry :=
  {| findContours := λ _, [dart; [(0, 0); (1, 0)]];
     arcLength := λ cnt _, if decide (cnt = dart) then 143 # 10 else 2 # 1;
     approxPolyDP := λ cnt _ _, cnt;
     moments := λ cnt,
       if decide (cnt = dart)
       then {| m00 := 4 # 1; m10 := 4 # 1; m01 := 4 # 1 |}
       else {| m00 := 0; m10 := 0; m01 := 0 |} |}.

(** A library that finds nothing. *)
Definition no_contours : Geometry :=
  {| findContours := λ _, [];
     arcLength := λ _ _, 0%Q;
     approxPolyDP := λ cnt _ _, cnt;
     moments := λ _, {| m00 := 0; m10 := 0; m01 := 0 |} |}.

End ExtractorSpec.

Module ImageProcessingSpec.
Import ImageProcessing.

(** A library that saves masks without loss. *)
Definition lossless : Imwrite := λ _ img, Some img.

(** A library that saves masks with loss: what is read back is one grey
    level off at every pixel. *)
Definition lossy : Imwrite :=
  λ _ img, Some ((λ row : list Z, (λ v, if 128 <? v then v - 1 else v + 1) <$> row) <$> img).

(** Number of image files among the paths. *)
Definition images_among (paths : list path) : Z :=
  Z.of_nat (length (filter (λ p, is_image_path p = true) paths)).

End ImageProcessingSpec.

Module CoordsSpec.
Import Extractor.

Definition not_newline (c : ascii) : bool := negb (Ascii.eqb c newline).
Definition not_comma (c : ascii) : bool := negb (Ascii.eqb c ",").

(** The text of a coordinate line before its line end. *)
Definition line_text (center : Z * Z) : string :=
  Py.str center.1 +:+ ", " +:+ Py.str center.2.

End CoordsSpec.

(** ** The rest of the scripts *)

(** The name the webcam loop saves a frame under:
    [f"capture_{timestamp}.png"]. *)
Module Webcam.

Definition capture_filename (timestamp : string) : string :=
  "capture_" +:+ timestamp +:+ ".png".

(** A capture landing in the watched folder. *)
Definition capture (timestamp : string) (w : Stager.wait_env) (env : Stager.stage_env)
  : Stager.arrival :=
  {| Stager.file_name := capture_filename timestamp; Stager.wenv := w; Stager.senv := env |}.

End Webcam.

(** ** [ImageHandler.on_created] of [image processing.py] *)

Module ImageProcessingHandler.
Import Extractor ImageProcessing.

Inductive handled : Type :=
| IgnoredDirectory
| RenameError
| IgnoredNonImage (new_filepath : path)
| Processed (new_filepath : path) (o : outcome).

(** [os.rename(src, dst)] on the file system, [src] being there. *)
Definition rename_file (fs : gmap path file) (src dst : path) : gmap path file :=
  match fs !! src with
  | Some f => <[dst := f]> (delete src fs)
  | None => fs
  end.

(** [rename_ok] is the answer of the operating system to the rename of a
    file that is there (no lock, no refusal to replace the target); a
    rename of a file that is not there raises. *)
Definition on_created `{G : Geometry} `{W : Imwrite} (g : globals) (fs : gmap path file)
    (event : Watch.fs_event) (rename_ok : bool)
  : globals * gmap path file * handled :=
  if Watch.is_directory event then (g, fs, IgnoredDirectory)
  else
    let '(g1, new_filepath) := get_new_filename g (Watch.src_path event) in
    if rename_ok && bool_decide (is_Some (fs !! Watch.src_path event)) then
      let fs1 := rename_file fs (Watch.src_path event) new_filepath in
      let '(_, ext) := Py.splitext (basename new_filepath) in
      if is_image_ext (Py.lower ext) then
        let '(fs2, o) := process_image fs1 new_filepath in
        (g1, fs2, Processed new_filepath o)
      else (g1, fs1, IgnoredNonImage new_filepath)
    else (g1, fs, RenameError).

End ImageProcessingHandler.

(** ** [process_image] of the first [code 2.py]: the largest contour *)

Module LargestContour.
Import Extractor.

(** [cv2.contourArea]. *)
Class ContourArea : Type := contourArea : contour -> Q.

(** [max(contours, key=...)] on a non-empty list, [best] being the maximum
    so far: a later element replaces it only with a strictly larger key. *)
Fixpoint max_by (key : contour -> Q) (best : contour) (rest : list contour) : contour :=
  match rest with
  | [] => best
  | c :: rest' =>
      if Qle_bool (key c) (key best) then max_by key best rest'
      else max_by key c rest'
  end.

Inductive outcome : Type :=
| FileNotFound
| FileUnreadable
| DecodeFailed
| NoContours
| ZeroArea
| CenterSaved (txt_filename : path) (center : Z * Z)
| ProcessingError.

(** [f"{cX}, {cY}"]: one line, no line end. *)
Definition center_text (center : Z * Z) : string :=
  Py.str center.1 +:+ ", " +:+ Py.str center.2.

Definition process_image `{G : Geometry} `{A : ContourArea} (fs : gmap path file)
    (filepath : path) : gmap path file * outcome :=
  match fs !! filepath with
  | None => (fs, FileNotFound)
  | Some f =>
      if negb (readable f) then (fs, FileUnreadable)
      else match imread f with
           | None => (fs, DecodeFailed)
           | Some img =>
               let thresh := zero_border (segment img) in
               match findContours thresh with
               | [] => (fs, NoContours)
               | c :: rest =>
                   let largest_contour := max_by contourArea c rest in
                   let M := moments largest_contour in
                   if Qeq_bool (m00 M) 0 then (fs, ZeroArea)
                   else
                     match truediv (m10 M) (m00 M), truediv (m01 M) (m00 M) with
                     | Some x, Some y =>
                         let center := (int_of_float x, int_of_float y) in
                         let txt_filename := coords_path filepath in
                         (<[txt_filename := {| readable := true;
                                               data := TextData (center_text center) |}]> fs,
                          CenterSaved txt_filename center)
                     | _, _ => (fs, ProcessingError)
                     end
               end
           end
  end.

End LargestContour.

(** ** Vocabulary of the further statements *)

Module MoreSpec.
Import Stager StagerSpec Extractor.

(** Iteration [i] of the retry loop ends in a retry: the source is not
    there, or the rename is refused because the file is in use. *)
Definition retryable_at (env : rename_env) (i : nat) : Prop :=
  source_exists (env i) = false ∨ locked_at env i.

(** Among the first [n] iterations, those that find the source in place. *)
Definition present_among (env : rename_env) (n : nat) : nat :=
  length (filter (λ i, source_exists (env i) = true) (seq 0 n)).

(** The source is never there. *)
Definition vanished : rename_env :=
  λ _, {| source_exists := false; rename_res := RenameOk |}.

(** The folder holds a name that stands for a number of at least [k]
    (nothing is asked for [k = 0]). *)
Definition has_number_at_least (k : Z) (names : gset string) : Prop :=
  k = 0 ∨ ∃ name n, name ∈ names ∧ numeric_stem name = Some n ∧ k ≤ n.

(** The IDs assigned in a run, failed stagings left out. *)
Definition assigned_ids (results : list stage_result) : list Z :=
  omap assigned_id results.

(** The names of the copies made by the stagings of a run that came to
    the end of their copy. *)
Definition copies (results : list stage_result) : list string :=
  omap (λ r, match r with
             | Staged _ _ copy_filename _ => Some copy_filename
             | _ => None
             end) results.

(** A staging in which [shutil.copy2] raises after it has created its
    destination. *)
Definition copy_cut_short : stage_env :=
  {| ren := locked_then_released 0; makedirs_ok := true; copy_ok := false;
     copy_left := true; gray_ok := true |}.

(** Position [(r, c)] lies on the outer frame of the mask. *)
Definition on_frame (mask : image) (r c : nat) : Prop :=
  ∃ row, mask !! r = Some row ∧ (c < length row)%nat ∧
         (r = 0%nat ∨ S r = length mask ∨ c = 0%nat ∨ S c = length row).

(** Position [(r, c)] lies strictly inside the frame. *)
Definition inside_frame (mask : image) (r c : nat) : Prop :=
  ∃ row, mask !! r = Some row ∧
         (0 < r)%nat ∧ (S r < length mask)%nat ∧ (0 < c)%nat ∧ (S c < length row)%nat.

End MoreSpec.

(* ===================================================================== *)
(** * Part II. Properties                                                *)
(* ===================================================================== *)

(** ** Facts about the Python built-ins *)

#[local] Arguments String.append !s1 s2 : simpl nomatch.

(** Case analysis on the eight bits of a character, for facts that hold of
    a few characters only. *)
Ltac ascii_cases c :=
  destruct c as [[] [] [] [] [] [] [] []]; try discriminate; try reflexivity.

Module PyFacts.
Import Py.

Lemma app_nil_r (s : string) : s +:+ "" = s.
Proof. induction s as [|c s IH]; simpl; [done | by rewrite IH]. Qed.

Lemma app_assoc (a b c : string) : (a +:+ b) +:+ c = a +:+ (b +:+ c).
Proof. induction a as [|x a IH]; simpl; [done | by rewrite IH]. Qed.

Lemma all_chars_app p (a b : string) :
  all_chars p (a +:+ b) = all_chars p a && all_chars p b.
Proof.
  induction a as [|x a IH]; simpl; [done |].
  by rewrite IH, andb_assoc.
Qed.

Lemma all_chars_impl (p q : ascii -> bool) (s : string) :
  (∀ c, p c = true -> q c = true) -> all_chars p s = true -> all_chars q s = true.
Proof.
  intros Hpq. induction s as [|c s IH]; simpl; [done |].
  intros [Hc Hs]%andb_prop. rewrite (Hpq _ Hc). by apply IH.
Qed.

(** *** Slices and [rfind] on concatenations *)

Lemma slice_to_app (a b : string) : slice_to (String.length a) (a +:+ b) = a.
Proof. induction a as [|x a IH]; simpl; [by destruct b | by rewrite IH]. Qed.

Lemma slice_from_app (a b : string) : slice_from (String.length a) (a +:+ b) = b.
Proof. induction a as [|x a IH]; simpl; [by destruct b | done]. Qed.

Lemma rfind_app c (a b : string) :
  rfind c (a +:+ b) =
  match rfind c b with
  | Some i => Some (String.length a + i)%nat
  | None => rfind c a
  end.
Proof.
  induction a as [|x a IH]; simpl.
  - by destruct (rfind c b).
  - rewrite IH. by destruct (rfind c b).
Qed.

Lemma rfind_none c (s : string) :
  all_chars (λ a, negb (Ascii.eqb a c)) s = true -> rfind c s = None.
Proof.
  induction s as [|x s IH]; simpl; [done |].
  intros [Hx Hs]%andb_prop. rewrite (IH Hs).
  by destruct (Ascii.eqb x c).
Qed.

Lemma rfind_some c (s : string) i :
  rfind c s = Some i ->
  ∃ rest, slice_from i s = String c rest ∧
          all_chars (λ a, negb (Ascii.eqb a c)) rest = true.
Proof.
  revert i. induction s as [|x s IH]; simpl; [done |].
  intros i. destruct (rfind c s) as [j|] eqn:Hj.
  - intros [= <-]. simpl. by apply IH.
  - destruct (Ascii.eqb_spec x c) as [->|]; [|done].
    intros [= <-]. simpl. exists s. split; [done |].
    clear IH. revert Hj. induction s as [|y s IH]; simpl; [done |].
    destruct (rfind c s); [done |].
    destruct (Ascii.eqb y c); [done |]. intros _. by apply IH.
Qed.

(** *** [splitext] *)

Lemma is_digit_not_dot c : is_digit c = true -> is_dot c = false.
Proof.
  ascii_cases c.
Qed.

Lemma splitext_extension (p : string) : is_extension (splitext p).2 = true.
Proof.
  unfold splitext. destruct (rfind "." p) as [i|] eqn:Hi; [|done].
  destruct (all_dots (slice_to i p)); [done |]. simpl.
  destruct (rfind_some _ _ _ Hi) as (rest & -> & Hrest). exact Hrest.
Qed.

(** A non-empty stem of ASCII digits followed by an extension is split
    back into the two. *)
Lemma splitext_digits_ext (d e : string) :
  all_digits d = true -> d ≠ "" -> is_extension e = true -> splitext (d +:+ e) = (d, e).
Proof.
  intros Hd Hne He. unfold splitext.
  assert (Hnodot : all_chars (λ a, negb (Ascii.eqb a ".")) d = true).
  { apply (all_chars_impl is_digit); [|done].
    intros a Ha. apply is_digit_not_dot in Ha. unfold is_dot in Ha. by rewrite Ha. }
  destruct e as [|c e].
  - rewrite app_nil_r, (rfind_none _ _ Hnodot). done.
  - simpl in He. apply andb_prop in He as [Hc He].
    unfold is_dot in Hc. apply Ascii.eqb_eq in Hc as ->.
    rewrite rfind_app. simpl. rewrite (rfind_none _ _ He). simpl.
    rewrite Nat.add_0_r, slice_to_app, slice_from_app.
    destruct d as [|c d]; [done |]. simpl in Hd.
    apply andb_prop in Hd as [Hc _].
    unfold all_dots. simpl. by rewrite (is_digit_not_dot _ Hc).
Qed.

(** *** The characters of ASCII strings *)

Lemma is_digit_ascii c : is_digit c = true -> is_ascii c = true.
Proof. ascii_cases c. Qed.

Lemma numeral_ascii c : is_numeral_char c = true -> is_ascii c = true.
Proof. ascii_cases c. Qed.

Lemma code_points_ascii c s :
  is_ascii c = true -> code_points (String c s) = cons (N_of_ascii c) <$> code_points s.
Proof. unfold is_ascii. intros Hc. cbn [code_points]. by rewrite Hc. Qed.

(** An ASCII string is its own sequence of characters. *)
Lemma code_points_all_ascii s :
  all_chars is_ascii s = true ->
  code_points s = Some (N_of_ascii <$> list_ascii_of_string s).
Proof.
  induction s as [|c s IH]; [done |]. simpl all_chars. intros [Hc Hs]%andb_prop.
  by rewrite code_points_ascii, IH.
Qed.

(** Among the ASCII characters the digits of [isdigit] are ['0'..'9']. *)
Lemma digit_char_ascii c : is_ascii c = true -> digit_char (N_of_ascii c) = is_digit c.
Proof.
  destruct c as [[] [] [] [] [] [] [] []]; intros H; try discriminate H;
    vm_compute; reflexivity.
Qed.

(** [int] reads the characters of a numeral of ASCII digits as they are. *)
Lemma literal_char_numeral c : is_numeral_char c = true -> literal_char (N_of_ascii c) = c.
Proof.
  destruct c as [[] [] [] [] [] [] [] []]; intros H; try discriminate H;
    vm_compute; reflexivity.
Qed.

(** *** [str], [isdigit] and [int] *)

Lemma all_digits_string_of_uint (d : Decimal.uint) :
  all_digits (NilEmpty.string_of_uint d) = true.
Proof. induction d; simpl; done. Qed.

Lemma string_of_uint_numeral (d : Decimal.uint) :
  all_digits (NilZero.string_of_uint d) = true ∧ NilZero.string_of_uint d ≠ "".
Proof.
  destruct d; simpl; (split; [try done; apply all_digits_string_of_uint | done]).
Qed.

(** The numeral of a non-negative integer is a non-empty run of ASCII
    digits. *)
Lemma all_digits_str (n : Z) : 0 ≤ n -> all_digits (str n) = true.
Proof.
  intros Hn. unfold str. destruct n as [|p|p]; [done | | lia].
  apply string_of_uint_numeral.
Qed.

Lemma str_nonempty (n : Z) : str n ≠ "".
Proof.
  unfold str. destruct n as [|p|p]; [done | | done].
  apply string_of_uint_numeral.
Qed.

Lemma digit_chars_ascii_digits s :
  all_digits s = true -> forallb digit_char (N_of_ascii <$> list_ascii_of_string s) = true.
Proof.
  induction s as [|c s IH]; [done |]. intros [Hc Hs]%andb_prop.
  cbn [list_ascii_of_string]. rewrite fmap_cons. cbn [forallb].
  by rewrite (digit_char_ascii _ (is_digit_ascii _ Hc)), Hc, IH.
Qed.

(** [isdigit] accepts the non-empty runs of ASCII digits. *)
Lemma isdigit_ascii_digits s : all_digits s = true -> s ≠ "" -> isdigit s = true.
Proof.
  intros Hd Hne. unfold isdigit.
  rewrite code_points_all_ascii
    by (apply (all_chars_impl is_digit); [apply is_digit_ascii | done]).
  pose proof (digit_chars_ascii_digits s Hd) as Hall.
  by destruct s.
Qed.

Lemma isdigit_str (n : Z) : 0 ≤ n -> isdigit (str n) = true.
Proof.
  intros Hn. apply isdigit_ascii_digits; [by apply all_digits_str | apply str_nonempty].
Qed.

(** [isdigit] rejects a string that starts with an ASCII character other
    than a digit. *)
Lemma isdigit_ascii_head c s :
  is_ascii c = true -> is_digit c = false -> isdigit (String c s) = false.
Proof.
  intros Ha Hd. unfold isdigit. rewrite code_points_ascii by done.
  destruct (code_points s) as [cs|]; [|done]. simpl.
  by rewrite digit_char_ascii, Hd.
Qed.

(** Every numeral is made of digits and at most a leading minus sign. *)
Lemma str_numeral_chars (n : Z) : all_chars is_numeral_char (str n) = true.
Proof.
  assert (H : ∀ d, all_chars is_numeral_char (NilZero.string_of_uint d) = true).
  { intros d. apply (all_chars_impl is_digit).
    - intros c Hc. unfold is_numeral_char. by rewrite Hc.
    - apply string_of_uint_numeral. }
  unfold str. destruct n as [|p|p]; simpl; [done | apply H |].
  apply H.
Qed.

Lemma literal_numeral s :
  all_chars is_numeral_char s = true ->
  string_of_list_ascii (literal_char <$> (N_of_ascii <$> list_ascii_of_string s)) = s.
Proof.
  induction s as [|c s IH]; [done |]. intros [Hc Hs]%andb_prop.
  cbn [list_ascii_of_string]. rewrite !fmap_cons. cbn [string_of_list_ascii].
  by rewrite literal_char_numeral, IH.
Qed.

(** On a numeral of ASCII digits [int] is the reader of decimal numerals. *)
Lemma int_numeral s :
  all_chars is_numeral_char s = true -> int s = Z.of_int <$> NilZero.int_of_string s.
Proof.
  intros Hs. unfold int.
  rewrite code_points_all_ascii
    by (apply (all_chars_impl is_numeral_char); [apply numeral_ascii | done]).
  simpl. by rewrite literal_numeral.
Qed.

(** [int] reads back what [str] prints. *)
Lemma int_str (n : Z) : int (str n) = Some n.
Proof.
  rewrite int_numeral by apply str_numeral_chars.
  unfold str. rewrite NilZero.isi.
  - simpl. by rewrite DecimalZ.of_to.
  - destruct n as [|p|p]; try done. simpl. intros [= H].
    by apply Unsigned.to_uint_nonnil in H.
  - destruct n as [|p|p]; try done. simpl. intros [= H].
    by apply Unsigned.to_uint_nonnil in H.
Qed.

Lemma decimal_below_ten c d : decimal c = Some d -> (d < 10)%N.
Proof.
  unfold decimal. destruct (List.find _ _) as [r|]; [|done].
  intros [= <-]. by apply N.mod_lt.
Qed.

(** No digit of [isdigit] is read by [int] as a minus sign. *)
Lemma literal_char_not_minus c :
  digit_char c = true -> Ascii.eqb (literal_char c) "-" = false.
Proof.
  intros Hc. unfold literal_char. destruct (decimal c) as [d|] eqn:Hd.
  - apply decimal_below_ten in Hd.
    rewrite <- (N2Nat.id d). assert (Hn : (N.to_nat d < 10)%nat) by lia.
    revert Hn. generalize (N.to_nat d). intros n Hn.
    do 10 (destruct n as [|n]; [reflexivity |]). lia.
  - destruct (N.ltb_spec c 128) as [Hlt|_]; [|reflexivity].
    apply Ascii.eqb_neq. intros Heq.
    apply (f_equal N_of_ascii) in Heq. rewrite N_ascii_embedding in Heq by lia.
    subst c. discriminate Hc.
Qed.

(** Under the [isdigit] guard a number that [int] returns is not
    negative. *)
Lemma int_isdigit_nonneg (s : string) n : isdigit s = true -> int s = Some n -> 0 ≤ n.
Proof.
  unfold isdigit, int. destruct (code_points s) as [[|c cs]|]; try done.
  simpl. intros [Hc _]%andb_prop.
  rewrite (literal_char_not_minus _ Hc).
  destruct (uint_of_char _ _) as [d|]; [|done].
  simpl. intros [= <-]. unfold Z.of_uint. lia.
Qed.

(** *** Substrings and [split] *)

Lemma contains_app_r (needle a b : string) :
  contains needle b = true -> contains needle (a +:+ b) = true.
Proof.
  intros Hb. induction a as [|x a IH]; simpl; [done |].
  rewrite IH. apply orb_true_r.
Qed.

Lemma is_digit_not_g c : is_digit c = true -> c ≠ "g"%char.
Proof.
  ascii_cases c; intros _ [=].
Qed.

Lemma contains_grayscale_digits (d t : string) :
  all_digits d = true ->
  contains "grayscale" (d +:+ t) = contains "grayscale" t.
Proof.
  induction d as [|c d IH]; [reflexivity |].
  intros [Hc Hd]%andb_prop. rewrite <- (IH Hd).
  ascii_cases c.
Qed.

Lemma is_digit_not_underscore c : is_digit c = true -> Ascii.eqb c "_" = false.
Proof.
  ascii_cases c.
Qed.

Lemma split_head_digits (d t : string) :
  all_digits d = true -> split_head "_" (d +:+ String "_" t) = d.
Proof.
  induction d as [|c d IH]; [reflexivity |].
  intros [Hc Hd]%andb_prop. simpl.
  by rewrite (is_digit_not_underscore _ Hc), (IH Hd).
Qed.

End PyFacts.

(** ** The File Stager *)

Module StagerFacts.
Import Stager StagerSpec.

(** *** The stability wait *)

Lemma slept_until_lower w n : 500 * Z.of_nat n ≤ slept_until w n.
Proof.
  induction n as [|n IH]; simpl slept_until; [lia |].
  unfold poll_ms. lia.
Qed.

(** The loop entered at iteration [k] with the clock within the timeout
    returns before its fuel is spent, provided the fuel covers the time
    that is left. *)
Lemma wait_loop_returns w timeout_ms fuel k :
  slept_until w k ≤ timeout_ms ->
  timeout_ms < slept_until w k + 500 * Z.of_nat fuel ->
  (∀ j, (j < k)%nat -> exists_at w j = false) ->
  ∃ r, wait_loop w timeout_ms fuel k (slept_until w k) = Some r ∧
       (k ≤ sleeps r ≤ k + fuel)%nat ∧
       waited_ms r = slept_until w (sleeps r) ∧
       (∀ j, (j < sleeps r)%nat -> exists_at w j = false) ∧
       (found r = true ->
          exists_at w (sleeps r) = true ∧ waited_ms r ≤ timeout_ms) ∧
       (found r = false ->
          timeout_ms < waited_ms r ∧
          ∃ n, sleeps r = S n ∧ slept_until w n ≤ timeout_ms).
Proof.
  revert k. induction fuel as [|fuel IH]; intros k Hle Hlt Hnot; [lia |].
  simpl wait_loop. destruct (exists_at w k) eqn:Hk.
  - eexists. split; [done |]. simpl. repeat split; try done; try lia.
  - change (slept_until w k + poll_ms + Z.of_N (lag w k)) with (slept_until w (S k)).
    assert (Hnot' : ∀ j, (j < S k)%nat -> exists_at w j = false).
    { intros j Hj. destruct (decide (j = k)) as [->|]; [done |]. apply Hnot. lia. }
    destruct (Z.ltb_spec timeout_ms (slept_until w (S k))) as [Hout|Hin].
    + eexists. split; [done |]. simpl sleeps. simpl waited_ms. simpl found.
      repeat split; try done; try lia. eauto.
    + destruct (IH (S k)) as (r & Hr & Hs & Hw & Hn & Ht & Hf); [done | | done |].
      { simpl slept_until in *. unfold poll_ms in *. lia. }
      exists r. split; [done |]. repeat split; try done; try lia.
      all: try (by apply Ht). all: by apply Hf.
Qed.

Lemma wait_loop_found_now w timeout_ms fuel k elapsed :
  exists_at w k = true ->
  wait_loop w timeout_ms (S fuel) k elapsed
  = Some {| found := true; sleeps := k; waited_ms := elapsed |}.
Proof. intros Hk. simpl. by rewrite Hk. Qed.

Lemma wait_loop_more_fuel w timeout_ms fuel fuel' k elapsed r :
  wait_loop w timeout_ms fuel k elapsed = Some r -> (fuel ≤ fuel')%nat ->
  wait_loop w timeout_ms fuel' k elapsed = Some r.
Proof.
  revert fuel' k elapsed. induction fuel as [|fuel IH]; intros fuel' k elapsed; [done |].
  intros Hr Hle. destruct fuel' as [|fuel']; [lia |]. simpl in *.
  destruct (exists_at w k); [done |].
  destruct (timeout_ms <? _); [done |]. apply IH; [done | lia].
Qed.

(** *** The retry loop *)






Lemma slept_ms_app l1 l2 : slept_ms (l1 ++ l2) = slept_ms l1 + slept_ms l2.
Proof.
  induction l1 as [|e l1 IH]; [done |].
  simpl. rewrite IH. destruct e; lia.
Qed.

(** The loop never needs more iterations than its attempt budget. *)
Lemma rename_loop_total env fuel a :
  (max_attempts - a < fuel)%nat -> is_Some (rename_loop env fuel a).
Proof.
  revert a. induction fuel as [|fuel IH]; intros a Hfuel; [lia |].
  - simpl. destruct (Nat.ltb_spec a max_attempts) as [Ha|Ha]; [|by eexists].
    destruct (IH (S a)) as [[r log] Hr]; [lia |].
    destruct (source_exists (env a)); simpl.
    + destruct (rename_res (env a)) as [|w]; [by eexists |].
      destruct (is_locked w); [|by eexists]. rewrite Hr. by eexists.
    + rewrite Hr. by eexists.
Qed.

Lemma rename_retry_total env : is_Some (rename_retry env).
Proof. apply rename_loop_total. unfold max_attempts. lia. Qed.

(** *** Numbering *)

Lemma numeric_stem_nonneg f n : numeric_stem f = Some n -> 0 ≤ n.
Proof.
  unfold numeric_stem. destruct (Py.isdigit _) eqn:Hd; [|done].
  by apply PyFacts.int_isdigit_nonneg.
Qed.

(** What the loop does at one entry, by the three kinds of entries. *)
Lemma current_numbers_cons f rest :
  current_numbers (f :: rest) =
  if unreadable f then None
  else match numeric_stem f with
       | Some n => ns ← current_numbers rest; Some (n :: ns)
       | None => current_numbers rest
       end.
Proof.
  simpl. unfold unreadable, numeric_stem.
  destruct (Py.splitext f) as [name f_ext]. simpl.
  destruct (Py.isdigit name); [|done]. by destruct (Py.int name).
Qed.

(** The loop over the listing either collects the numeric stems, all
    entries being readable, or it raises, an entry being unreadable. *)
Lemma current_numbers_cases listing :
  current_numbers listing = Some (found_numbers listing) ∧
    Forall (λ f, unreadable f = false) listing
  ∨ current_numbers listing = None ∧ Exists (λ f, unreadable f = true) listing.
Proof.
  unfold found_numbers. induction listing as [|f rest IH]; [by left |].
  rewrite current_numbers_cons. destruct (unreadable f) eqn:Hf.
  - right. split; [done |]. by apply Exists_cons_hd.
  - destruct IH as [[-> Hall]|[-> Hex]].
    + left. split; [|by apply Forall_cons_2].
      simpl. by destruct (numeric_stem f).
    + right. split; [by destruct (numeric_stem f) |]. by apply Exists_cons_tl.
Qed.

Lemma current_numbers_found listing :
  Forall (λ f, unreadable f = false) listing ->
  current_numbers listing = Some (found_numbers listing).
Proof.
  intros Hall. destruct (current_numbers_cases listing) as [[H _]|[_ Hex]]; [done |].
  apply Exists_exists in Hex as (f & Hin & Hf).
  rewrite Forall_forall in Hall. specialize (Hall f Hin). congruence.
Qed.

Lemma current_numbers_some listing numbers :
  current_numbers listing = Some numbers ->
  numbers = found_numbers listing ∧ Forall (λ f, unreadable f = false) listing.
Proof.
  intros Hsome. destruct (current_numbers_cases listing) as [[H Hall]|[H _]]; [|congruence].
  split; [congruence | done].
Qed.


Lemma elem_of_found_numbers listing n :
  n ∈ found_numbers listing ↔ ∃ f, f ∈ listing ∧ numeric_stem f = Some n.
Proof. unfold found_numbers. apply list_elem_of_omap. Qed.

Lemma foldl_max_spec (l : list Z) x :
  (foldl Z.max x l = x ∨ foldl Z.max x l ∈ l) ∧ x ≤ foldl Z.max x l ∧
  ∀ n, n ∈ l -> n ≤ foldl Z.max x l.
Proof.
  revert x. induction l as [|y l IH]; intros x; simpl.
  - split; [by left |]. split; [lia |]. intros n Hn. by apply elem_of_nil in Hn.
  - destruct (IH (Z.max x y)) as (Hm & Hle & Hall). split; [|split].
    + destruct Hm as [Hm|Hm]; [|right; by apply elem_of_cons; right].
      rewrite Hm. destruct (Z.max_spec x y) as [[_ He]|[_ He]]; rewrite He.
      * right. apply elem_of_cons. by left.
      * by left.
    + lia.
    + intros n [->|Hn]%elem_of_cons; [lia | by apply Hall].
Qed.

Lemma py_max_spec (l : list Z) m :
  Py.max l = Some m -> m ∈ l ∧ ∀ n, n ∈ l -> n ≤ m.
Proof.
  destruct l as [|x l]; [done |]. intros [= <-].
  destruct (foldl_max_spec l x) as (Hm & Hle & Hall). split.
  - apply elem_of_cons. destruct Hm as [->|]; [by left | by right].
  - intros n [->|Hn]%elem_of_cons; [done | by apply Hall].
Qed.

(** The rule of the numbering: one more than the largest number found,
    1 when none is found. *)
Lemma next_number_rule (numbers : list Z) :
  ∃ id, next_number numbers = Some id ∧
    ((numbers = [] ∧ id = 1) ∨
     (id - 1 ∈ numbers ∧ ∀ n, n ∈ numbers -> n ≤ id - 1)).
Proof.
  destruct numbers as [|x l]; [exists 1; split; [done | by left] |].
  exists (foldl Z.max x l + 1). split; [done |].
  right. replace (foldl Z.max x l + 1 - 1) with (foldl Z.max x l) by lia.
  by apply py_max_spec.
Qed.

Lemma next_number_value (numbers : list Z) k :
  (∀ n, n ∈ numbers -> 0 ≤ n ≤ k) -> (k = 0 ∨ k ∈ numbers) ->
  next_number numbers = Some (k + 1).
Proof.
  intros Hall Hk. destruct (next_number_rule numbers) as (id & -> & [[-> ->]|[Hin Hmax]]).
  - destruct Hk as [->|Hk]; [done | by apply elem_of_nil in Hk].
  - f_equal. pose proof (Hall _ Hin). destruct Hk as [->|Hk]; [lia |].
    pose proof (Hmax _ Hk). lia.
Qed.

(** *** [rename_new_image] *)


(** An ID that the numbering yields follows the rule on the numbers
    found, and is at least 1. *)
Lemma numbering_some listing id :
  current_numbers listing ≫= next_number = Some id ->
  current_numbers listing = Some (found_numbers listing) ∧
  next_number (found_numbers listing) = Some id ∧ 1 ≤ id ∧
  ∀ g n, g ∈ listing -> numeric_stem g = Some n -> n < id.
Proof.
  destruct (current_numbers listing) as [numbers|] eqn:Hscan; [|done]. simpl.
  destruct (current_numbers_some _ _ Hscan) as [-> _]. intros Hnext.
  split; [done |]. split; [done |].
  destruct (next_number_rule (found_numbers listing)) as (id' & Hid' & Hrule).
  rewrite Hnext in Hid'. injection Hid' as <-.
  destruct Hrule as [[Hnil ->]|[Hin Hmax]].
  - split; [done |]. intros g n Hg Hn.
    assert (Hfound : n ∈ found_numbers listing) by (apply elem_of_found_numbers; eauto).
    rewrite Hnil in Hfound. by apply elem_of_nil in Hfound.
  - split.
    + apply elem_of_found_numbers in Hin as (f & _ & Hf%numeric_stem_nonneg). lia.
    + intros g n Hg Hn.
      assert (n ≤ id - 1) by (apply Hmax, elem_of_found_numbers; eauto). lia.
Qed.

(** The name given to the renamed file is read back as its ID. *)
Lemma numeric_stem_new f id :
  0 ≤ id -> numeric_stem (Py.str id +:+ (Py.splitext f).2) = Some id.
Proof.
  intros Hid. unfold numeric_stem.
  rewrite PyFacts.splitext_digits_ext by
    (by apply PyFacts.all_digits_str || apply PyFacts.str_nonempty
     || apply PyFacts.splitext_extension).
  simpl. rewrite PyFacts.isdigit_str by done. apply PyFacts.int_str.
Qed.

Lemma unreadable_new f id : 0 ≤ id -> unreadable (Py.str id +:+ (Py.splitext f).2) = false.
Proof.
  intros Hid. unfold unreadable.
  rewrite PyFacts.splitext_digits_ext by
    (by apply PyFacts.all_digits_str || apply PyFacts.str_nonempty
     || apply PyFacts.splitext_extension).
  simpl. rewrite PyFacts.int_str. apply andb_false_r.
Qed.

Lemma copy_name_new f id :
  0 ≤ id ->
  copy_name (Py.str id +:+ (Py.splitext f).2)
  = Py.str id +:+ "_grayscale" +:+ (Py.splitext f).2.
Proof.
  intros Hid. unfold copy_name.
  by rewrite PyFacts.splitext_digits_ext by
    (by apply PyFacts.all_digits_str || apply PyFacts.str_nonempty
     || apply PyFacts.splitext_extension).
Qed.

(** What a staging that assigned an ID did. *)
Lemma rename_new_image_assigned listing st f env st' r id :
  rename_new_image listing st f env = Some (st', r) -> assigned_id r = Some id ->
  let new_filename := Py.str id +:+ (Py.splitext f).2 in
  let copy_filename := copy_name new_filename in
  current_numbers listing ≫= next_number = Some id ∧
  (∃ log, rename_retry (ren env) = Some (Renamed, log)) ∧
  intake st' = {[new_filename]} ∪ (intake st ∖ {[f]}) ∧
  (r = Staged id new_filename copy_filename (gray_ok env) ∧
     makedirs_ok env = true ∧ copy_ok env = true ∧
     copied st' = {[copy_filename]} ∪ copied st
   ∨ r = CopyFailed id new_filename ∧ makedirs_ok env = true ∧ copy_ok env = false ∧
     copied st' = (if copy_left env then {[copy_filename]} ∪ copied st else copied st)
   ∨ r = MakedirsRaised id new_filename ∧ makedirs_ok env = false ∧
     copied st' = copied st).
Proof.
  unfold rename_new_image. destruct (Py.splitext f) as [nm ext]. simpl.
  destruct (current_numbers listing ≫= next_number) as [n|]; [|by intros [= <- <-]].
  destruct (rename_retry (ren env)) as [[o log]|]; [|done]. simpl.
  destruct o; try by intros [= <- <-].
  destruct (makedirs_ok env); [|intros [= <- <-] [= <-]; simpl; eauto 10].
  destruct (copy_ok env); [intros [= <- <-] [= <-]; simpl; eauto 10 |].
  destruct (copy_left env); intros [= <- <-] [= <-]; simpl; eauto 10.
Qed.

(** A staging that assigned no ID has left the folders as they were. *)
Lemma staging_unassigned listing st f env st' r :
  rename_new_image listing st f env = Some (st', r) -> assigned_id r = None -> st' = st.
Proof.
  unfold rename_new_image. destruct (Py.splitext f) as [nm ext].
  destruct (current_numbers listing ≫= next_number) as [n|]; [|by intros [= <- <-]].
  destruct (rename_retry (ren env)) as [[o log]|]; [|done]. simpl.
  destruct o; try by intros [= <- <-].
  destruct (makedirs_ok env); [|by intros [= <- <-]].
  destruct (copy_ok env); by intros [= <- <-].
Qed.

(** An assigned ID is at least 1 and exceeds every number of the
    listing. *)
Lemma assigned_id_exceeds listing st f env st' r id :
  rename_new_image listing st f env = Some (st', r) -> assigned_id r = Some id ->
  1 ≤ id ∧ ∀ g n, g ∈ listing -> numeric_stem g = Some n -> n < id.
Proof.
  intros Hrun Hid.
  destruct (rename_new_image_assigned _ _ _ _ _ _ _ Hrun Hid) as (Hnext & _).
  by destruct (numbering_some _ _ Hnext) as (_ & _ & Hpos & Hlt).
Qed.

(** Once the numbering has yielded an ID, a rename that goes through
    assigns it. *)
Lemma rename_new_image_renamed listing st f env log id :
  current_numbers listing ≫= next_number = Some id ->
  rename_retry (ren env) = Some (Renamed, log) ->
  ∃ st' r, rename_new_image listing st f env = Some (st', r) ∧
           assigned_id r = Some id.
Proof.
  intros Hnext Hren. unfold rename_new_image. destruct (Py.splitext f) as [nm ext].
  rewrite Hnext, Hren. simpl.
  destruct (makedirs_ok env); [|eauto]. destruct (copy_ok env); eauto.
Qed.

(** A rename that does not go through ends the staging. *)
Lemma rename_new_image_not_renamed listing st f env o log id :
  current_numbers listing ≫= next_number = Some id ->
  rename_retry (ren env) = Some (o, log) -> o ≠ Renamed ->
  rename_new_image listing st f env = Some (st, RenameFailed o).
Proof.
  intros Hnext Hren Ho. unfold rename_new_image. destruct (Py.splitext f) as [nm ext].
  rewrite Hnext, Hren. simpl. by destruct o.
Qed.

(** When the scan raises, the exception leaves [rename_new_image] before
    anything is renamed. *)
Lemma rename_new_image_raised listing st f env :
  current_numbers listing ≫= next_number = None ->
  rename_new_image listing st f env = Some (st, Raised).
Proof.
  intros Hnone. unfold rename_new_image. destruct (Py.splitext f) as [nm ext].
  by rewrite Hnone.
Qed.

(** Every staging comes to an end. *)
Lemma rename_new_image_total listing st f env :
  ∃ st' r, rename_new_image listing st f env = Some (st', r).
Proof.
  unfold rename_new_image. destruct (Py.splitext f) as [nm ext].
  destruct (current_numbers listing ≫= next_number) as [id|]; [|by eexists _, _].
  destruct (rename_retry_total (ren env)) as [[o log] ->]. simpl.
  destruct o; try by eexists _, _.
  destruct (makedirs_ok env); [|by eexists _, _].
  destruct (copy_ok env); by eexists _, _.
Qed.

Lemma wait_for_file_total w : ∃ r, wait_for_file w 10 = Some r.
Proof.
  destruct (wait_loop_returns w 10000 (wait_fuel 10) 0) as (r & Hr & _);
    [done | done | lia |].
  by exists r.
Qed.

Lemma stage_total st f w env : ∃ st' r, stage st f w env = Some (st', r).
Proof.
  unfold stage. destruct (wait_for_file_total w) as [r ->]. simpl.
  destruct (found r); [|by eexists _, _].
  apply rename_new_image_total.
Qed.

Lemma stage_all_total arrivals : ∀ st,
  ∃ st' results, stage_all st arrivals = Some (st', results).
Proof.
  induction arrivals as [|a rest IH]; intros st; [by eexists _, _ |].
  destruct (stage_total (land st (file_name a)) (file_name a) (wenv a) (senv a))
    as (st1 & r & Hrun).
  destruct (IH st1) as (st2 & rs & Hrest).
  exists st2, (r :: rs). simpl. rewrite Hrun. simpl. by rewrite Hrest.
Qed.

(** *** Files staged one at a time *)

Lemma below_rank_spec k f :
  below_rank k f = true ↔
  unreadable f = false ∧ ∀ n, numeric_stem f = Some n -> n < k.
Proof.
  unfold below_rank. destruct (unreadable f); simpl; [by split; [|intros []] |].
  destruct (numeric_stem f) as [m|].
  - destruct (Z.ltb_spec m k); split; try done.
    + intros _. split; [done |]. by intros n [= <-].
    + intros [_ Hm]. specialize (Hm m eq_refl). lia.
  - split; [|done]. intros _. by split.
Qed.

(** A file that arrives in rank and is staged gets the next ID. *)
Lemma stage_in_rank st a k :
  numbered_up_to k (intake st) -> all_readable (intake st) -> is_staged a ->
  below_rank (Z.of_nat (S k)) (file_name a) = true ->
  ∃ st' r, stage (land st (file_name a)) (file_name a) (wenv a) (senv a) = Some (st', r) ∧
           assigned_id r = Some (Z.of_nat (S k)) ∧
           numbered_up_to (S k) (intake st') ∧ all_readable (intake st').
Proof.
  intros [Hmax Hk] Hread [Hwait Hren] [Hf Hbelow]%below_rank_spec. unfold stage.
  destruct (wait_for_file (wenv a) 10) as [w|]; [|done].
  injection Hwait as Hfound. simpl. rewrite Hfound.
  destruct (rename_retry (ren (senv a))) as [[o log]|] eqn:Hretry; [|done].
  injection Hren as ->.
  set (listing := elements (intake (land st (file_name a)))).
  assert (Hlisting : ∀ g, g ∈ listing -> g = file_name a ∨ g ∈ intake st).
  { intros g Hg%elem_of_elements. simpl in Hg.
    apply elem_of_union in Hg as [->%elem_of_singleton|Hg]; [by left | by right]. }
  assert (Hnext : current_numbers listing ≫= next_number = Some (Z.of_nat (S k))).
  { rewrite current_numbers_found.
    - simpl. rewrite (next_number_value _ (Z.of_nat k)); [f_equal; lia | |].
      + intros n (g & Hg & Hn)%elem_of_found_numbers. split.
        * by apply numeric_stem_nonneg in Hn.
        * destruct (Hlisting g Hg) as [->|Hin].
          -- specialize (Hbelow n Hn). lia.
          -- by apply (Hmax g).
      + destruct Hk as [->|(g & Hg & Hn)]; [by left | right].
        apply elem_of_found_numbers. exists g. split; [|done].
        apply elem_of_elements. simpl. apply elem_of_union. by right.
    - apply Forall_forall. intros g Hg.
      destruct (Hlisting g Hg) as [->|Hin]; [done | by apply Hread]. }
  destruct (rename_new_image_renamed listing (land st (file_name a)) (file_name a)
              (senv a) log _ Hnext Hretry) as (st' & r & Hrun & Hid).
  exists st', r. split; [done |]. split; [done |].
  destruct (rename_new_image_assigned _ _ _ _ _ _ _ Hrun Hid) as (_ & _ & Hintake & _).
  rewrite Hintake. simpl. split; [split |].
  - intros name n [->%elem_of_singleton|Hin]%elem_of_union Hn.
    + rewrite numeric_stem_new in Hn by lia. injection Hn as <-. lia.
    + apply elem_of_difference in Hin as [Hin Hne].
      apply elem_of_union in Hin as [Heq%elem_of_singleton|Hin];
        [by destruct Hne; apply elem_of_singleton |].
      pose proof (Hmax _ _ Hin Hn). lia.
  - right. eexists. split; [apply elem_of_union; left; by apply elem_of_singleton |].
    apply numeric_stem_new. lia.
  - intros name [->%elem_of_singleton|Hin]%elem_of_union.
    + apply unreadable_new. lia.
    + apply elem_of_difference in Hin as [Hin Hne].
      apply elem_of_union in Hin as [Heq%elem_of_singleton|Hin];
        [by destruct Hne; apply elem_of_singleton |].
      by apply Hread.
Qed.

(** A file that arrives out of rank does not get the next ID: the scan
    raises on its name, or its own number pushes the ID up. *)
Lemma stage_out_of_rank st a k st' r :
  below_rank (Z.of_nat (S k)) (file_name a) = false ->
  stage (land st (file_name a)) (file_name a) (wenv a) (senv a) = Some (st', r) ->
  assigned_id r ≠ Some (Z.of_nat (S k)).
Proof.
  intros Hout. unfold stage.
  destruct (wait_for_file (wenv a) 10) as [w|]; [|done]. simpl.
  destruct (found w); [|by intros [= <- <-]].
  intros Hrun Hid.
  assert (Hin : file_name a ∈ elements (intake (land st (file_name a)))).
  { apply elem_of_elements. simpl. apply elem_of_union. left. by apply elem_of_singleton. }
  destruct (rename_new_image_assigned _ _ _ _ _ _ _ Hrun Hid) as (Hnext & _).
  destruct (numbering_some _ _ Hnext) as (Hscan & _ & _ & Hlt).
  destruct (current_numbers_some _ _ Hscan) as [_ Hall].
  rewrite Forall_forall in Hall.
  assert (below_rank (Z.of_nat (S k)) (file_name a) = true); [|congruence].
  apply below_rank_spec. split; [by apply Hall |].
  intros n Hn. by apply (Hlt (file_name a)).
Qed.

(** Staged one at a time, the files get the IDs that follow the largest
    number of the folder exactly when each of them arrives in rank. *)
Lemma stage_all_in_rank arrivals : ∀ st k,
  numbered_up_to k (intake st) -> all_readable (intake st) ->
  Forall is_staged arrivals ->
  ∃ st' results, stage_all st arrivals = Some (st', results) ∧
    (assigned_id <$> results = (λ i, Some (Z.of_nat i)) <$> seq (S k) (length arrivals)
     ↔ arrive_in_rank (Z.of_nat (S k)) arrivals = true).
Proof.
  induction arrivals as [|a rest IH]; intros st k Hinv Hread Hst; [by exists st, [] |].
  apply Forall_cons in Hst as [Ha Hst].
  cbn [arrive_in_rank length seq]. rewrite fmap_cons.
  destruct (below_rank (Z.of_nat (S k)) (file_name a)) eqn:Hrank.
  - destruct (stage_in_rank st a k Hinv Hread Ha Hrank)
      as (st1 & r & Hrun & Hid & Hinv1 & Hread1).
    destruct (IH st1 (S k) Hinv1 Hread1 Hst) as (st2 & rs & Hrest & Hiff).
    exists st2, (r :: rs). split; [simpl; rewrite Hrun; simpl; by rewrite Hrest |].
    rewrite fmap_cons, Hid. cbn [andb].
    replace (Z.of_nat (S k) + 1) with (Z.of_nat (S (S k))) by lia.
    rewrite <- Hiff. split; [by intros [= ->] | by intros ->].
  - destruct (stage_total (land st (file_name a)) (file_name a) (wenv a) (senv a))
      as (st1 & r & Hrun).
    destruct (stage_all_total rest st1) as (st2 & rs & Hrest).
    exists st2, (r :: rs). split; [simpl; rewrite Hrun; simpl; by rewrite Hrest |].
    rewrite fmap_cons. cbn [andb]. split; [|done].
    intros [= Hid _]. by destruct (stage_out_of_rank st a k st1 r Hrank Hrun).
Qed.

(** From empty folders: the IDs are 1..N exactly when every file arrives
    in rank. *)
Lemma ids_in_arrival_order_iff arrivals :
  Forall is_staged arrivals ->
  ids_in_arrival_order arrivals ↔ arrive_in_rank 1 arrivals = true.
Proof.
  intros Hst.
  destruct (stage_all_in_rank arrivals empty_folders 0) as (st & results & Hrun & Hiff); [| |done|].
  { split; [|by left]. intros name n Hin. by apply elem_of_empty in Hin. }
  { intros name Hin. by apply elem_of_empty in Hin. }
  change (Z.of_nat 1) with 1 in Hiff. rewrite <- Hiff. unfold ids_in_arrival_order, first_ids.
  split.
  - intros (st' & results' & Hrun' & Hids). rewrite Hrun in Hrun'. by injection Hrun' as <- <-.
  - intros Hids. by exists st, results.
Qed.

End StagerFacts.

(** ** Claims about the File Stager *)

Module StagerClaims.
Import Stager StagerSpec StagerFacts.






(** C8. The stability wait returns on every execution: for whatever the
    file system answers and however long the sleeps last, 22 iterations
    are never used up. It returns [True] at the first check that finds
    the path, having slept 0.5 s (or longer) after each earlier check,
    and it returns [False] at the first moment after a sleep at which more
    than 10 s have passed, which happens after 21 sleeps at the latest;
    the staging then ends with [FileNeverAppeared]. *)
Theorem wait_for_file_terminates (w : wait_env) :
  ∃ r, wait_for_file w 10 = Some r ∧
       (∀ fuel, (wait_fuel 10 ≤ fuel)%nat -> wait_loop w 10000 fuel 0 0 = Some r) ∧
       (sleeps r ≤ 21)%nat ∧
       waited_ms r = slept_until w (sleeps r) ∧
       (∀ j, (j < sleeps r)%nat -> exists_at w j = false) ∧
       (found r = true -> exists_at w (sleeps r) = true ∧ waited_ms r ≤ 10000) ∧
       (found r = false ->
          10000 < waited_ms r ∧
          ∃ n, sleeps r = S n ∧ slept_until w n ≤ 10000) ∧
       (exists_at w 0 = true -> r = {| found := true; sleeps := 0; waited_ms := 0 |}) ∧
       (found r = false ->
          ∀ st f env, stage st f w env = Some (st, FileNeverAppeared)).
Proof.
  destruct (wait_loop_returns w 10000 (wait_fuel 10) 0)
    as (r & Hr & Hs & Hw & Hnot & Ht & Hf); [done | done | lia |].
  exists r. split; [exact Hr |].
  split; [|split; [|split; [|split; [|split; [|split; [|split]]]]]]; try done.
  - intros fuel Hfuel. by apply (wait_loop_more_fuel _ _ _ _ _ _ _ Hr).
  - pose proof (slept_until_lower w (sleeps r)).
    destruct (found r) eqn:Hfound.
    + destruct Ht as [_ Ht]; [done |]. lia.
    + destruct Hf as (_ & n & Hn & Hle); [done |].
      pose proof (slept_until_lower w n). lia.
  - intros H0. unfold wait_for_file in Hr.
    change (wait_fuel 10) with (S 21) in Hr.
    rewrite (wait_loop_found_now _ _ _ _ _ H0) in Hr. by injection Hr as <-.
  - intros Hfound st f env.
    assert (Hwait : wait_for_file w 10 = Some r) by exact Hr.
    unfold stage. rewrite Hwait. simpl. by rewrite Hfound.
Qed.

Lemma wait_for_file_terminates_witness :
  ∃ r, wait_for_file {| exists_at := λ k, (3 <=? k)%nat; lag := λ _, 20%N |} 10 = Some r ∧
       found r = true ∧ sleeps r = 3%nat ∧ waited_ms r = 1560.
Proof.
  destruct (wait_for_file_terminates
              {| exists_at := λ k, (3 <=? k)%nat; lag := λ _, 20%N |})
    as (r & Hr & _).
  exists r. split; [exact Hr |].
  vm_compute in Hr. injection Hr as <-. repeat split.
Defined.

End StagerClaims.

(** ** The Rectangle Extractor and the Coordinate Writer *)

Module ExtractorFacts.
Import Extractor ExtractorSpec.

(** *** Segmentation *)

Lemma pixel_segment (img : image) r c :
  pixel (segment img) r c = threshold_pixel 50 255 THRESH_BINARY_INV <$> pixel img r c.
Proof.
  unfold pixel, segment, threshold. rewrite list_lookup_fmap.
  destruct (img !! r) as [row|]; [|done]. simpl. by rewrite list_lookup_fmap.
Qed.

Lemma segment_background (img : image) :
  all_background img -> Forall (Forall (λ v, v = 0)) (segment img).
Proof.
  intros Hbg. unfold segment, threshold. apply Forall_fmap.
  eapply Forall_impl; [exact Hbg |]. intros row Hrow. simpl.
  apply Forall_fmap. eapply Forall_impl; [exact Hrow |].
  intros v Hv. simpl in *. unfold threshold_pixel.
  destruct (Z.ltb_spec 50 v); [done | lia].
Qed.

Lemma zero_row_zero row : Forall (λ v, v = 0) (zero_row row).
Proof. unfold zero_row. apply Forall_fmap. by apply Forall_true. Qed.

Lemma zero_border_zero (mask : image) : all_zero mask -> all_zero (zero_border mask).
Proof.
  intros Hz. unfold all_zero, zero_border.
  apply Forall_fmap, Forall_fmap.
  assert (Halter : ∀ (l : list (list Z)) i,
             Forall (Forall (λ v, v = 0)) l -> Forall (Forall (λ v, v = 0)) (alter zero_row i l)).
  { intros l i Hl. apply Forall_lookup. intros j row Hj.
    destruct (decide (i = j)) as [->|Hne].
    - rewrite list_lookup_alter_eq in Hj.
      destruct (l !! j) as [row'|]; [|done]. injection Hj as <-. apply zero_row_zero.
    - rewrite list_lookup_alter_ne in Hj by done.
      by apply (Forall_lookup_1 _ _ _ _ Hl Hj). }
  eapply Forall_impl; [apply Halter, Halter, Hz |].
  intros row Hrow. simpl. apply Forall_insert; [apply Forall_insert |]; done.
Qed.

(** *** Truncation *)

Lemma int_of_float_truncates (x : Q) : truncates x (int_of_float x).
Proof.
  destruct x as [n d]. unfold truncates, int_of_float, Qle, Qlt. simpl.
  pose proof (Z.quot_rem' n (Z.pos d)) as Hqr.
  split; intros Hsign.
  - assert (Hn : 0 ≤ n) by lia.
    pose proof (Z.rem_bound_pos n (Z.pos d) Hn ltac:(lia)). nia.
  - assert (Hn : 0 ≤ - n) by lia.
    pose proof (Z.rem_bound_pos (- n) (Z.pos d) Hn ltac:(lia)) as Hb.
    rewrite Z.rem_opp_l in Hb by lia. nia.
Qed.

(** *** The loop over the contours *)

Section WithGeometry.
Context `{G : Geometry}.

Lemma truediv_nonzero a b : Qeq_bool b 0 = false -> truediv a b = Some (a / b)%Q.
Proof. intros Hb. unfold truediv. by rewrite Hb. Qed.

(** The loop raises nothing and appends, in the order of the contours,
    the center of each one that has a center. *)
Lemma rectangle_loop_centers contours : ∀ acc,
  rectangle_loop contours acc = Some (acc ++ omap center_of contours).
Proof.
  induction contours as [|cnt rest IH]; intros acc; simpl.
  - by rewrite app_nil_r.
  - unfold center_of at 1. destruct (is_rectangle cnt); [|apply IH].
    destruct (Qeq_bool (m00 (moments cnt)) 0) eqn:Hzero; [apply IH |].
    rewrite !truediv_nonzero by done. simpl. rewrite IH.
    by rewrite <- app_assoc.
Qed.

Lemma find_rectangles_centers img :
  find_rectangles img
  = Some (omap center_of (findContours (zero_border (segment img)))).
Proof. unfold find_rectangles. by rewrite rectangle_loop_centers. Qed.

(** The test of the loop is the test of the specification. *)
Lemma is_rectangle_four_vertices cnt : is_rectangle cnt = four_vertices cnt.
Proof.
  unfold is_rectangle, four_vertices, approx, epsilon.
  destruct (Nat.eqb_spec (length (approxPolyDP cnt ((2 # 100) * arcLength cnt true) true)) 4).
  - by rewrite bool_decide_eq_true_2.
  - by rewrite bool_decide_eq_false_2.
Qed.

(** From an empty list the loop returns what the contours contribute
    according to the specification, contour by contour, in their order. *)
Lemma rectangle_loop_candidates contours :
  rectangle_loop contours [] = Some (contours ≫= candidate_centers).
Proof.
  rewrite rectangle_loop_centers. simpl. f_equal.
  induction contours as [|cnt rest IH]; [done |].
  change (omap center_of (cnt :: rest))
    with (match center_of cnt with
          | Some center => center :: omap center_of rest
          | None => omap center_of rest
          end).
  rewrite bind_cons, IH. unfold center_of, candidate_centers.
  rewrite is_rectangle_four_vertices. destruct (four_vertices cnt); [|done].
  by destruct (Qeq_bool (m00 (moments cnt)) 0).
Qed.

Lemma no_candidate_no_center (contours : list contour) :
  (∀ cnt, cnt ∈ contours -> is_rectangle cnt = false) ->
  omap center_of contours = [].
Proof.
  intros Hnone. induction contours as [|cnt rest IH]; [done |].
  simpl. unfold center_of at 1. rewrite Hnone by (apply elem_of_cons; by left).
  apply IH. intros c Hc. apply Hnone, elem_of_cons. by right.
Qed.

(** With no center found nothing is written. *)
Lemma process_image_no_centers (fs : gmap path file) filepath f img :
  fs !! filepath = Some f -> readable f = true -> imread f = Some img ->
  find_rectangles img = Some [] ->
  process_image fs filepath = (fs, NoRectanglesFound).
Proof.
  intros Hf Hr Hi Hnone. unfold process_image. by rewrite Hf, Hr, Hi, Hnone.
Qed.

Lemma bw_path_not_coords_path filepath :
  ImageProcessing.bw_path filepath ≠ ImageProcessing.coords_path filepath.
Proof.
  unfold ImageProcessing.bw_path, ImageProcessing.coords_path.
  destruct (Py.splitext (basename filepath)) as [stem ext]. simpl.
  intros [= Heq]. apply String.app_inj in Heq. discriminate Heq.
Qed.

Lemma image_processing_no_centers `{W : ImageProcessing.Imwrite}
    (fs : gmap path file) filepath f img :
  fs !! filepath = Some f -> readable f = true -> imread f = Some img ->
  find_rectangles img = Some [] ->
  ImageProcessing.process_image fs filepath
  = (match ImageProcessing.imwrite (ImageProcessing.bw_path filepath) (segment img) with
     | Some saved =>
         <[ImageProcessing.bw_path filepath := ImageProcessing.written saved]> fs
     | None => fs
     end,
     NoRectanglesFound).
Proof.
  intros Hf Hr Hi Hnone. unfold ImageProcessing.process_image.
  by rewrite Hf, Hr, Hi, Hnone.
Qed.
End WithGeometry.

End ExtractorFacts.

(** ** The coordinate file and its naive reader *)

Module CoordsFacts.
Import Extractor NaiveParser CoordsSpec.

Lemma numeral_not_newline c : Py.is_numeral_char c = true -> not_newline c = true.
Proof.
  ascii_cases c.
Qed.

Lemma numeral_not_comma c : Py.is_numeral_char c = true -> not_comma c = true.
Proof.
  ascii_cases c.
Qed.

Lemma coord_line_text center : coord_line center = line_text center +:+ String newline "".
Proof. unfold coord_line, line_text. by rewrite !PyFacts.app_assoc. Qed.

Lemma line_text_no_newline center : Py.all_chars not_newline (line_text center) = true.
Proof.
  unfold line_text. rewrite !PyFacts.all_chars_app.
  rewrite !(PyFacts.all_chars_impl _ _ _ numeral_not_newline (PyFacts.str_numeral_chars _)).
  reflexivity.
Qed.

Lemma foldl_append (centers : list (Z * Z)) : ∀ written,
  foldl (λ w c, w +:+ coord_line c) written centers = written +:+ coords_text centers.
Proof.
  unfold coords_text. induction centers as [|c cs IH]; intros written; simpl.
  - by rewrite PyFacts.app_nil_r.
  - rewrite IH, (IH (coord_line c)). by rewrite PyFacts.app_assoc.
Qed.

Lemma coords_text_cons c cs : coords_text (c :: cs) = coord_line c +:+ coords_text cs.
Proof. unfold coords_text at 1. simpl. apply foldl_append. Qed.

Lemma lines_app_newline (l rest : string) :
  Py.all_chars not_newline l = true ->
  lines (l +:+ String newline rest) = l :: lines rest.
Proof.
  induction l as [|c l IH]; simpl.
  - reflexivity.
  - intros [Hc Hl]%andb_prop. unfold not_newline in Hc.
    apply negb_true_iff in Hc. rewrite Hc, (IH Hl). done.
Qed.

Lemma break_comma_app (a b : string) :
  Py.all_chars not_comma a = true -> break_comma (a +:+ String "," b) = Some (a, b).
Proof.
  induction a as [|c a IH]; simpl; [done |].
  intros [Hc Ha]%andb_prop. unfold not_comma in Hc.
  apply negb_true_iff in Hc. by rewrite Hc, (IH Ha).
Qed.

Lemma parse_line_text center : parse_line (line_text center) = Some center.
Proof.
  destruct center as [x y]. unfold parse_line, line_text. simpl.
  rewrite break_comma_app
    by apply (PyFacts.all_chars_impl _ _ _ numeral_not_comma (PyFacts.str_numeral_chars _)).
  simpl. by rewrite !PyFacts.int_str.
Qed.

Lemma lines_coords_text centers : lines (coords_text centers) = line_text <$> centers.
Proof.
  induction centers as [|c cs IH]; [done |].
  rewrite coords_text_cons, coord_line_text, PyFacts.app_assoc. simpl.
  rewrite lines_app_newline by apply line_text_no_newline.
  by rewrite IH.
Qed.

Lemma parse_coords_text centers : parse (coords_text centers) = Some centers.
Proof.
  unfold parse. rewrite lines_coords_text.
  induction centers as [|c cs IH]; [done |].
  rewrite fmap_cons. cbn [parse_lines]. rewrite parse_line_text.
  cbn [mbind option_bind]. by rewrite IH.
Qed.

End CoordsFacts.

(** ** Claims about the Rectangle Extractor and the Coordinate Writer *)

Module ExtractorClaims.
Import Extractor ExtractorSpec ExtractorFacts.

(** C4. The mask is computed pixel by pixel with the inverse binary rule
    at the constants 50 and 255: a pixel darker than 50 becomes 255, a
    pixel brighter than 50 becomes 0 (a pixel of exactly 50 becomes 255),
    and the result for a pixel depends on nothing but its own value,
    whatever image it is in. *)
Theorem segmentation_fixed_threshold (img : image) (r c : nat) (v : Z)
    (Hpixel : pixel img r c = Some v) :
  ∃ v', pixel (segment img) r c = Some v' ∧
        v' = threshold_pixel 50 255 THRESH_BINARY_INV v ∧
        (v < 50 -> v' = 255) ∧
        (50 < v -> v' = 0) ∧
        (v = 50 -> v' = 255) ∧
        (∀ (img2 : image) r2 c2,
           pixel img2 r2 c2 = Some v -> pixel (segment img2) r2 c2 = Some v').
Proof.
  exists (threshold_pixel 50 255 THRESH_BINARY_INV v).
  rewrite pixel_segment, Hpixel. split; [done |]. split; [done |].
  unfold threshold_pixel. repeat split.
  - intros Hv. destruct (Z.ltb_spec 50 v); [lia | done].
  - intros Hv. destruct (Z.ltb_spec 50 v); [done | lia].
  - by intros ->.
  - intros img2 r2 c2 H2. by rewrite pixel_segment, H2.
Qed.

Lemma segmentation_fixed_threshold_witness :
  ∃ v', pixel (segment [[200; 200; 200]; [200; 12; 200]]) 1 1 = Some v' ∧ v' = 255.
Proof.
  destruct (segmentation_fixed_threshold [[200; 200; 200]; [200; 12; 200]] 1 1 12)
    as (v' & Hv' & _ & Hdark & _); [reflexivity |].
  exists v'. split; [exact Hv' |]. apply Hdark. lia.
Defined.

(** C3. The loop treats a contour as a rectangle candidate exactly when
    its polygon approximation, taken with a tolerance of 2% of the
    perimeter of the closed contour, has 4 vertices. A contour whose
    approximation has another number of vertices contributes nothing. One
    whose approximation has 4 vertices goes on to the moments and
    contributes its centroid (nothing if its zeroth moment is zero); what
    it contributes depends on the number of vertices and on the moments
    alone, so a concave quadrilateral contributes like a convex one. A
    contour of non-zero area thus has its center emitted if and only if
    it has 4 vertices. Over the contours of a mask the loop returns these
    contributions, one contour after the other. *)
Theorem rectangle_qualification `{G : Geometry} (cnt : contour)
    (contours : list contour) (img : image) :
  let vertices := approxPolyDP cnt ((2 # 100) * arcLength cnt true) true in
  let M := moments cnt in
  let center := (int_of_float (m10 M / m00 M), int_of_float (m01 M / m00 M)) in
  (length vertices ≠ 4%nat -> rectangle_loop [cnt] [] = Some []) ∧
  (length vertices = 4%nat ->
     rectangle_loop [cnt] [] = Some (if Qeq_bool (m00 M) 0 then [] else [center])) ∧
  (Qeq_bool (m00 M) 0 = false ->
     (rectangle_loop [cnt] [] = Some [center] ↔ length vertices = 4%nat)) ∧
  (length vertices = 4%nat -> is_convex_quad vertices = false ->
     Qeq_bool (m00 M) 0 = false -> rectangle_loop [cnt] [] = Some [center]) ∧
  rectangle_loop contours [] = Some (contours ≫= candidate_centers) ∧
  find_rectangles img
  = Some (findContours (zero_border (segment img)) ≫= candidate_centers).
Proof.
  intros vertices M center. subst vertices M center.
  assert (Hone : rectangle_loop [cnt] [] = Some (candidate_centers cnt)).
  { rewrite rectangle_loop_candidates. simpl. by rewrite app_nil_r. }
  assert (Hno : length (approxPolyDP cnt ((2 # 100) * arcLength cnt true) true) ≠ 4%nat ->
                rectangle_loop [cnt] [] = Some []).
  { intros Hlen. rewrite Hone. unfold candidate_centers, four_vertices.
    by rewrite bool_decide_eq_false_2. }
  assert (Hyes : length (approxPolyDP cnt ((2 # 100) * arcLength cnt true) true) = 4%nat ->
                 rectangle_loop [cnt] []
                 = Some (if Qeq_bool (m00 (moments cnt)) 0 then [] else [centroid cnt])).
  { intros Hlen. rewrite Hone. unfold candidate_centers, four_vertices.
    by rewrite bool_decide_eq_true_2. }
  split; [exact Hno |]. split; [exact Hyes |]. split; [|split; [|split]].
  - intros Hm00. split.
    + intros Hrun.
      destruct (decide (length (approxPolyDP cnt ((2 # 100) * arcLength cnt true) true)
                        = 4%nat)) as [Hlen|Hlen]; [done |].
      rewrite (Hno Hlen) in Hrun. discriminate Hrun.
    + intros Hlen. rewrite (Hyes Hlen), Hm00. done.
  - intros Hlen _ Hm00. rewrite (Hyes Hlen), Hm00. done.
  - apply rectangle_loop_candidates.
  - unfold find_rectangles. apply rectangle_loop_candidates.
Qed.

(** A dart qualifies; a segment, with its two vertices, does not. *)
Lemma rectangle_qualification_witness :
  is_convex_quad (@approxPolyDP sample_geometry dart
                    ((2 # 100) * @arcLength sample_geometry dart true) true) = false ∧
  @rectangle_loop sample_geometry [dart] [] = Some [(1, 1)] ∧
  @rectangle_loop sample_geometry [[(0, 0); (1, 0)]] [] = Some [].
Proof.
  split; [reflexivity |]. split.
  - destruct (@rectangle_qualification sample_geometry dart [] []) as (_ & _ & _ & Hdart & _).
    rewrite Hdart; reflexivity.
  - destruct (@rectangle_qualification sample_geometry [(0, 0); (1, 0)] [] [])
      as (Hsegment & _).
    apply Hsegment. simpl. lia.
Defined.

(** C2. In the loop a candidate whose zeroth moment is zero emits
    nothing, so no division by zero is ever made: the loop raises nothing,
    on any list of contours. A candidate with a non-zero zeroth moment
    emits [(m10/m00, m01/m00)], each quotient cut to an integer by
    dropping its fractional part. *)
Theorem centers_skip_zero_area `{G : Geometry} (contours : list contour)
    (acc : list (Z * Z)) :
  rectangle_loop contours acc = Some (acc ++ omap center_of contours) ∧
  (∀ cnt, is_rectangle cnt = true -> Qeq_bool (m00 (moments cnt)) 0 = true ->
     center_of cnt = None ∧ rectangle_loop [cnt] acc = Some acc) ∧
  (∀ cnt, is_rectangle cnt = true -> Qeq_bool (m00 (moments cnt)) 0 = false ->
     let M := moments cnt in
     ∃ cX cY, center_of cnt = Some (cX, cY) ∧
              rectangle_loop [cnt] acc = Some (acc ++ [(cX, cY)]) ∧
              truediv (m10 M) (m00 M) = Some (m10 M / m00 M)%Q ∧
              truediv (m01 M) (m00 M) = Some (m01 M / m00 M)%Q ∧
              truncates (m10 M / m00 M) cX ∧
              truncates (m01 M / m00 M) cY).
Proof.
  split; [apply rectangle_loop_centers |]. split.
  - intros cnt Hrect Hzero. split.
    + unfold center_of. by rewrite Hrect, Hzero.
    + simpl. by rewrite Hrect, Hzero.
  - intros cnt Hrect Hzero M. subst M.
    exists (int_of_float (m10 (moments cnt) / m00 (moments cnt))),
           (int_of_float (m01 (moments cnt) / m00 (moments cnt))).
    split; [unfold center_of; by rewrite Hrect, Hzero |].
    split; [simpl; rewrite Hrect, Hzero; by rewrite !truediv_nonzero by done |].
    split; [by apply truediv_nonzero |]. split; [by apply truediv_nonzero |].
    split; apply int_of_float_truncates.
Qed.

(** The dart is emitted, the segment of no area is skipped. *)
Lemma centers_skip_zero_area_witness :
  @rectangle_loop sample_geometry [dart; [(0, 0); (1, 0)]] [] = Some [(1, 1)].
Proof.
  destruct (@centers_skip_zero_area sample_geometry [dart; [(0, 0); (1, 0)]] [])
    as (Hloop & _).
  rewrite Hloop. reflexivity.
Defined.

(** C5. When no contour of the mask is a rectangle candidate,
    [process_image] ends with the empty sequence of centers, not with an
    error, and the Coordinate Writer is not run: the file system is left
    as it was (in [image processing.py], as it was but for the saved
    mask), so no coordinate file is created, replaced or emptied. An
    image of background pixels only has an all-zero mask. *)
Theorem no_rectangles_no_artifact `{G : Geometry} `{W : ImageProcessing.Imwrite}
    (fs : gmap path file) (filepath : path) (f : file) (img : image)
    (Hfile : fs !! filepath = Some f) (Hreadable : readable f = true)
    (Hdecoded : imread f = Some img)
    (Hnone : ∀ cnt, cnt ∈ findContours (zero_border (segment img)) ->
                    is_rectangle cnt = false) :
  find_rectangles img = Some [] ∧
  process_image fs filepath = (fs, NoRectanglesFound) ∧
  centers_of (process_image fs filepath).2 = Some [] ∧
  (∃ fs1, ImageProcessing.process_image fs filepath = (fs1, NoRectanglesFound) ∧
          fs1 !! ImageProcessing.coords_path filepath
          = fs !! ImageProcessing.coords_path filepath) ∧
  (all_background img -> all_zero (zero_border (segment img))).
Proof.
  assert (Hempty : find_rectangles img = Some []).
  { rewrite find_rectangles_centers. by rewrite no_candidate_no_center. }
  pose proof (process_image_no_centers fs filepath f img Hfile Hreadable Hdecoded Hempty) as Hrun.
  split; [done |]. split; [done |]. split; [by rewrite Hrun |]. split.
  - eexists. split; [by apply (image_processing_no_centers fs filepath f img) |].
    destruct (ImageProcessing.imwrite _ _); [|done].
    apply lookup_insert_ne, bw_path_not_coords_path.
  - intros Hbg. by apply zero_border_zero, segment_background.
Qed.

Lemma no_rectangles_no_artifact_witness :
  let blank := {| readable := true; data := ImageData [[255; 255]; [255; 255]] |} in
  let fs : gmap path file := {[ ("copied_images", "1_grayscale.png") := blank ]} in
  @process_image no_contours fs ("copied_images", "1_grayscale.png")
  = (fs, NoRectanglesFound).
Proof.
  intros blank fs.
  destruct (@no_rectangles_no_artifact no_contours ImageProcessingSpec.lossy fs
              ("copied_images", "1_grayscale.png") blank [[255; 255]; [255; 255]])
    as (_ & Hrun & _); [reflexivity | reflexivity | reflexivity | | exact Hrun].
  intros cnt Hcnt. by apply elem_of_nil in Hcnt.
Defined.

End ExtractorClaims.

Module CoordsClaims.
Import Extractor NaiveParser CoordsFacts.

(** C7. Writing a sequence of centers with the Coordinate Writer and
    reading the file back line by line gives the sequence again: the
    file is made of one line ["<x>, <y>"] per center, in order; it
    replaces whatever the path held before and no other path changes.
    This holds in particular for the file [process_image] saves. *)
Theorem coords_round_trip (fs : gmap path file) (txt_filename : path)
    (centers : list (Z * Z)) :
  read_coords (write_coords fs txt_filename centers) txt_filename = Some centers ∧
  lines (coords_text centers)
    = (λ c, Py.str c.1 +:+ ", " +:+ Py.str c.2) <$> centers ∧
  (∀ previous,
     write_coords (write_coords fs txt_filename previous) txt_filename centers
     = write_coords fs txt_filename centers) ∧
  (∀ other, other ≠ txt_filename ->
     write_coords fs txt_filename centers !! other = fs !! other) ∧
  (∀ (G : Geometry) filepath fs' txt saved,
     process_image fs filepath = (fs', CoordinatesSaved txt saved) ->
     read_coords fs' txt = Some saved).
Proof.
  assert (Hread : ∀ (m : gmap path file) p cs, read_coords (write_coords m p cs) p = Some cs).
  { intros m p cs. unfold read_coords, write_coords. rewrite lookup_insert_eq. simpl.
    apply parse_coords_text. }
  split; [apply Hread |]. split; [apply lines_coords_text |]. split; [|split].
  - intros previous. unfold write_coords. apply insert_insert_eq.
  - intros other Hother. unfold write_coords. by apply lookup_insert_ne.
  - intros G filepath fs' txt saved. unfold process_image.
    destruct (fs !! filepath) as [f|]; [|done].
    destruct (negb (readable f)); [done |].
    destruct (imread f) as [img|]; [|done].
    destruct (find_rectangles img) as [[|c cs]|]; try done.
    intros [= <- <- <-]. apply Hread.
Qed.

Lemma coords_round_trip_witness :
  read_coords (write_coords ∅ ("copied_images", "1_coords.txt") [(150, 150); (-3, 0)])
    ("copied_images", "1_coords.txt")
  = Some [(150, 150); (-3, 0)].
Proof.
  exact (proj1 (coords_round_trip ∅ ("copied_images", "1_coords.txt") [(150, 150); (-3, 0)])).
Defined.

End CoordsClaims.

(** ** From the stager to the extractor *)

Module PipelineClaims.
Import Stager StagerSpec StagerFacts.

Lemma contains_marker_suffix (name ext : string) :
  Py.contains "grayscale" (name +:+ "_grayscale" +:+ ext) = true.
Proof. apply PyFacts.contains_app_r. by destruct ext. Qed.

Lemma dispatches_file_created (directory name : string) :
  Watch.dispatches (Watch.file_created directory name) = Py.contains "grayscale" name.
Proof. reflexivity. Qed.

(** C9. The copy the stager puts into the staging folder is called
    [<ID>_grayscale<ext>]; its name contains ["grayscale"], so its creation
    event passes the test of the staging watcher and is handed to
    [process_image]. The coordinate file written for it is called
    [<ID>_coords.txt]; that name does not contain ["grayscale"], so its
    creation event is dropped and the extractor is not run on it. *)
Theorem staged_copy_reaches_extractor (listing : list string) (st st' : folders)
    (f : string) (env : stage_env) (id : Z) (new_filename copy_filename : string)
    (gray : bool) (directory : string)
    (Hstaged : rename_new_image listing st f env
               = Some (st', Staged id new_filename copy_filename gray)) :
  copy_filename = Py.str id +:+ "_grayscale" +:+ (Py.splitext f).2 ∧
  copy_filename ∈ copied st' ∧
  Py.contains "grayscale" copy_filename = true ∧
  Watch.dispatches (Watch.file_created directory copy_filename) = true ∧
  (∀ (G : Extractor.Geometry) fs,
     Watch.on_created fs (Watch.file_created directory copy_filename)
     = Some (500, Extractor.process_image fs (join directory copy_filename))) ∧
  Extractor.coords_path (join directory copy_filename)
    = join directory (Py.str id +:+ "_coords.txt") ∧
  Py.contains "grayscale" (Py.str id +:+ "_coords.txt") = false ∧
  Watch.dispatches (Watch.file_created directory (Py.str id +:+ "_coords.txt")) = false ∧
  (∀ (G : Extractor.Geometry) fs,
     Watch.on_created fs (Watch.file_created directory (Py.str id +:+ "_coords.txt"))
     = None).
Proof.
  destruct (rename_new_image_assigned _ _ _ _ _ _ _ Hstaged eq_refl)
    as (Hnext & _ & _ & [(Hr & _ & _ & Hcopied)|[(Hr & _)|(Hr & _)]]);
    [|discriminate Hr..].
  injection Hr as -> -> _.
  assert (Hid : 0 ≤ id).
  { destruct (numbering_some _ _ Hnext) as (_ & _ & Hpos & _). lia. }
  rewrite copy_name_new in * by done.
  pose proof (PyFacts.all_digits_str id Hid) as Hdigits.
  assert (Hmarker : Py.contains "grayscale"
                      (Py.str id +:+ "_grayscale" +:+ (Py.splitext f).2) = true)
    by apply contains_marker_suffix.
  assert (Hcoords : Py.contains "grayscale" (Py.str id +:+ "_coords.txt") = false)
    by (by rewrite PyFacts.contains_grayscale_digits).
  split; [done |]. split; [rewrite Hcopied; apply elem_of_union; left; by apply elem_of_singleton |].
  split; [done |].
  assert (Hdisp : Watch.dispatches
                    (Watch.file_created directory
                       (Py.str id +:+ "_grayscale" +:+ (Py.splitext f).2)) = true)
    by (by rewrite dispatches_file_created).
  split; [done |]. split; [intros G fs; unfold Watch.on_created; by rewrite Hdisp |].
  split.
  { unfold Extractor.coords_path, join, basename, dirname. simpl.
    f_equal. f_equal. apply (PyFacts.split_head_digits _ _ Hdigits). }
  split; [done |].
  assert (Hdrop : Watch.dispatches
                    (Watch.file_created directory (Py.str id +:+ "_coords.txt")) = false)
    by (by rewrite dispatches_file_created).
  split; [done |]. intros G fs. unfold Watch.on_created. by rewrite Hdrop.
Qed.

Lemma staged_copy_reaches_extractor_witness :
  Watch.dispatches (Watch.file_created "copied_images" "1_grayscale.png") = true ∧
  Watch.dispatches (Watch.file_created "copied_images" "1_coords.txt") = false.
Proof.
  destruct (staged_copy_reaches_extractor ["capture.png"]
              {| intake := {["capture.png"]}; copied := ∅ |}
              {| intake := {["1.png"]} ∪ ({["capture.png"]} ∖ {["capture.png"]});
                 copied := {["1_grayscale.png"]} ∪ ∅ |}
              "capture.png" smooth 1 "1.png" "1_grayscale.png" true "copied_images")
    as (_ & _ & _ & Hin & _ & _ & _ & Hout & _); [reflexivity |].
  split; [exact Hin | exact Hout].
Defined.

End PipelineClaims.

(** ** The global counters of [image processing.py] *)

Module ImageProcessingClaims.
Import ImageProcessing ImageProcessingSpec.

Lemma txt_is_not_image : is_image_ext ".txt" = false.
Proof. reflexivity. Qed.

Lemma get_new_filename_txt g p :
  is_txt_path p = true ->
  get_new_filename g p
  = (g, join (dirname p) ("coords_" +:+ Py.str (image_counter g) +:+ ".txt")).
Proof.
  unfold is_txt_path, get_new_filename.
  destruct (Py.splitext (basename p)) as [name ext]. simpl.
  intros Htxt. apply bool_decide_eq_true in Htxt as Hext.
  by rewrite Htxt, Hext, txt_is_not_image.
Qed.

Lemma get_new_filename_counters g p :
  text_counter (get_new_filename g p).1 = text_counter g ∧
  image_counter (get_new_filename g p).1
  = image_counter g + (if is_image_path p then 1 else 0).
Proof.
  unfold is_image_path, get_new_filename.
  destruct (Py.splitext (basename p)) as [name ext]. simpl.
  destruct (is_image_ext (Py.lower ext)); simpl; [done |].
  destruct (bool_decide _); simpl; lia.
Qed.

Lemma images_among_cons p paths :
  images_among (p :: paths) = (if is_image_path p then 1 else 0) + images_among paths.
Proof.
  unfold images_among. rewrite filter_cons.
  case_decide as Himg.
  - rewrite Himg. simpl length. lia.
  - apply not_true_is_false in Himg. rewrite Himg. lia.
Qed.

Lemma rename_all_counters paths : ∀ g,
  text_counter (rename_all g paths).1 = text_counter g ∧
  image_counter (rename_all g paths).1 = image_counter g + images_among paths.
Proof.
  induction paths as [|p rest IH]; intros g.
  - simpl. unfold images_among. simpl. lia.
  - simpl. destruct (get_new_filename_counters g p) as [Ht Hi].
    destruct (get_new_filename g p) as [g1 q]. simpl in Ht, Hi.
    destruct (IH g1) as [Ht1 Hi1].
    destruct (rename_all g1 rest) as [g2 qs]. simpl in *.
    rewrite images_among_cons. lia.
Qed.

(** C10. After any run of creation events, [text_counter] is still 0 and
    [image_counter] is the number of image files the run has given a new
    name to. A [.txt] file that comes next is called
    [coords_<image_counter>.txt], and neither counter moves; before any
    image, that is [coords_0.txt]. *)
Theorem txt_named_by_image_counter (paths : list path) (p : path)
    (Htxt : is_txt_path p = true) :
  text_counter (rename_all initial paths).1 = 0 ∧
  image_counter (rename_all initial paths).1 = images_among paths ∧
  get_new_filename (rename_all initial paths).1 p
  = ((rename_all initial paths).1,
     join (dirname p) ("coords_" +:+ Py.str (images_among paths) +:+ ".txt")) ∧
  get_new_filename initial p = (initial, join (dirname p) "coords_0.txt") ∧
  (∀ g q, text_counter (get_new_filename g q).1 = text_counter g).
Proof.
  destruct (rename_all_counters paths initial) as [Ht Hi]. simpl in Ht, Hi.
  split; [done |]. split; [done |]. split; [|split].
  - rewrite get_new_filename_txt by done. by rewrite Hi.
  - by rewrite get_new_filename_txt.
  - intros g q. apply get_new_filename_counters.
Qed.

Lemma txt_named_by_image_counter_witness :
  get_new_filename
    (rename_all initial [("in", "a.png"); ("in", "notes.txt"); ("in", "b.JPG")]).1
    ("in", "centers.txt")
  = ({| image_counter := 2; text_counter := 0 |}, ("in", "coords_2.txt")).
Proof.
  destruct (txt_named_by_image_counter
              [("in", "a.png"); ("in", "notes.txt"); ("in", "b.JPG")]
              ("in", "centers.txt")) as (_ & _ & Hname & _); [reflexivity |].
  rewrite Hname. reflexivity.
Defined.

End ImageProcessingClaims.

(* ===================================================================== *)
(** * Part III. Further properties of the scripts                         *)
(* ===================================================================== *)

(** ** More on the Python built-ins *)

Module PyMore.
Import Py.

(** A stem that is not made of dots only, followed by a non-empty
    extension, is split back into the two. *)
Lemma splitext_app_ext (s e : string) :
  is_extension e = true -> e ≠ "" -> all_dots s = false ->
  splitext (s +:+ e) = (s, e).
Proof.
  intros He Hne Hs. destruct e as [|c e]; [done |].
  simpl in He. apply andb_prop in He as [Hc He].
  unfold is_dot in Hc. apply Ascii.eqb_eq in Hc as ->.
  unfold splitext. rewrite PyFacts.rfind_app. simpl.
  rewrite (PyFacts.rfind_none _ _ He). simpl.
  by rewrite Nat.add_0_r, PyFacts.slice_to_app, PyFacts.slice_from_app, Hs.
Qed.

(** [splitext] loses nothing: root and extension make up the name. *)
Lemma slice_to_from (n : nat) (s : string) : slice_to n s +:+ slice_from n s = s.
Proof.
  revert s. induction n as [|n IH]; intros [|c s]; simpl; try done.
  by rewrite IH.
Qed.

Lemma splitext_join (p : string) : (splitext p).1 +:+ (splitext p).2 = p.
Proof.
  unfold splitext. destruct (rfind "." p) as [i|]; [|apply PyFacts.app_nil_r].
  destruct (all_dots (slice_to i p)); [apply PyFacts.app_nil_r |].
  apply slice_to_from.
Qed.

(** [str] is one to one. *)
Lemma str_inj (a b : Z) : str a = str b -> a = b.
Proof.
  intros Heq. pose proof (PyFacts.int_str a) as Ha.
  rewrite Heq, PyFacts.int_str in Ha. by injection Ha.
Qed.

End PyMore.

(** ** More on the File Stager *)

Module StagerMore.
Import Stager StagerSpec StagerFacts MoreSpec.

(** *** The budget of the retry loop *)

Lemma rename_loop_bounds env fuel : ∀ a,
  (max_attempts - a < fuel)%nat ->
  ∃ o log, rename_loop env fuel a = Some (o, log) ∧
    (rename_calls log ≤ max_attempts - a)%nat ∧
    0 ≤ slept_ms log ≤ 1000 * Z.of_nat (max_attempts - a) ∧
    (o ≠ RenameExhausted ->
       (1 ≤ rename_calls log)%nat ∧ slept_ms log + 1000 ≤ 1000 * Z.of_nat (max_attempts - a)) ∧
    (o = RenameExhausted -> slept_ms log = 1000 * Z.of_nat (max_attempts - a)).
Proof.
  induction fuel as [|fuel IH]; intros a Hfuel; [lia |].
  simpl. destruct (Nat.ltb_spec a max_attempts) as [Ha|Ha].
  - destruct (IH (S a)) as (o & log & Hrun & Hcalls & Hslept & Hok & Hex); [lia |].
    assert (Hstep : Z.of_nat (max_attempts - a) = Z.of_nat (max_attempts - S a) + 1) by lia.
    assert (Hretry : ∀ e, slept_ms [e] = 0 ->
              (rename_calls (e :: EvSleep retry_sleep_ms :: log) ≤ max_attempts - a)%nat ∧
              0 ≤ slept_ms (e :: EvSleep retry_sleep_ms :: log)
                ≤ 1000 * Z.of_nat (max_attempts - a) ∧
              (o ≠ RenameExhausted ->
                 (1 ≤ rename_calls (e :: EvSleep retry_sleep_ms :: log))%nat ∧
                 slept_ms (e :: EvSleep retry_sleep_ms :: log) + 1000
                 ≤ 1000 * Z.of_nat (max_attempts - a)) ∧
              (o = RenameExhausted ->
                 slept_ms (e :: EvSleep retry_sleep_ms :: log)
                 = 1000 * Z.of_nat (max_attempts - a))).
    { intros e He.
      assert (Hs : slept_ms (e :: EvSleep retry_sleep_ms :: log) = 1000 + slept_ms log)
        by (destruct e; simpl in *; unfold retry_sleep_ms; lia).
      assert (Hc : (rename_calls log ≤ rename_calls (e :: EvSleep retry_sleep_ms :: log)
                    ≤ S (rename_calls log))%nat)
        by (destruct e; simpl in *; lia).
      rewrite Hs. split; [lia |]. split; [lia |]. split.
      - intros Ho. destruct (Hok Ho). lia.
      - intros Ho. rewrite (Hex Ho). lia. }
    destruct (source_exists (env a)); simpl.
    + destruct (rename_res (env a)) as [|w].
      * eexists _, _. split; [done |]. simpl.
        split; [lia |]. split; [lia |]. split; [intros _; lia | done].
      * destruct (is_locked w).
        -- rewrite Hrun. simpl. eexists _, _. split; [done |]. apply Hretry. reflexivity.
        -- eexists _, _. split; [done |]. simpl.
           split; [lia |]. split; [lia |]. split; [intros _; lia | done].
    + rewrite Hrun. simpl. eexists _, _. split; [done |]. apply Hretry. reflexivity.
  - eexists _, _. split; [done |]. simpl.
    replace (max_attempts - a)%nat with 0%nat by lia.
    split; [lia |]. split; [lia |]. split; [done | intros _; lia].
Qed.

(** X4. Whatever the operating system answers, the retry loop of
    [rename_new_image] ends: it calls [os.rename] at most 10 times and
    sleeps at most 10 s in all. It gives up only after exactly 10 s of
    sleeping; when it ends otherwise (rename done, or fatal error), it has
    called [os.rename] at least once and slept at most 9 s. *)
Theorem retry_is_bounded (env : rename_env) :
  ∃ o log, rename_retry env = Some (o, log) ∧
    (rename_calls log ≤ 10)%nat ∧
    0 ≤ slept_ms log ≤ 10000 ∧
    (o ≠ RenameExhausted -> (1 ≤ rename_calls log)%nat ∧ slept_ms log ≤ 9000) ∧
    (o = RenameExhausted -> slept_ms log = 10000).
Proof.
  destruct (rename_loop_bounds env (S max_attempts) 0)
    as (o & log & Hrun & Hcalls & Hslept & Hok & Hex); [unfold max_attempts; lia |].
  exists o, log. split; [exact Hrun |].
  change (max_attempts - 0)%nat with 10%nat in *.
  split; [lia |]. split; [lia |]. split.
  - intros Ho. destruct (Hok Ho). lia.
  - intros Ho. rewrite (Hex Ho). lia.
Qed.

Lemma retry_is_bounded_witness :
  ∃ o log, rename_retry (locked_then_released 2) = Some (o, log) ∧
           (rename_calls log ≤ 10)%nat ∧ slept_ms log ≤ 9000.
Proof.
  destruct (retry_is_bounded (locked_then_released 2)) as (o & log & Hrun & Hcalls & _ & Hok & _).
  exists o, log. split; [exact Hrun |]. split; [exact Hcalls |].
  apply Hok. vm_compute in Hrun. injection Hrun as <- _. discriminate.
Defined.

Lemma rename_loop_retryable env k : ∀ a fuel,
  (a + k = max_attempts)%nat ->
  (∀ i, (a ≤ i < max_attempts)%nat -> retryable_at env i) -> (k < fuel)%nat ->
  ∃ log, rename_loop env fuel a = Some (RenameExhausted, log) ∧
         slept_ms log = 1000 * Z.of_nat k ∧
         rename_calls log
         = length (filter (λ i, source_exists (env i) = true) (seq a k)).
Proof.
  induction k as [|k IH]; intros a fuel Hak Hretry Hfuel;
    (destruct fuel as [|fuel]; [lia |]); simpl rename_loop.
  - destruct (Nat.ltb_spec a max_attempts); [lia |]. by eexists.
  - destruct (Nat.ltb_spec a max_attempts); [|lia].
    destruct (IH (S a) fuel) as (log & Hrun & Hslept & Hcalls);
      [lia | intros i Hi; apply Hretry; lia | lia |].
    simpl seq. rewrite filter_cons.
    destruct (Hretry a) as [Hgone|[Hsrc Hres]]; [lia | |].
    + rewrite decide_False by (by rewrite Hgone).
      rewrite Hgone. simpl. rewrite Hrun. simpl. eexists. split; [done |].
      simpl. unfold retry_sleep_ms. split; [lia | done].
    + rewrite decide_True by done.
      rewrite Hsrc, Hres. simpl. rewrite Hrun. simpl. eexists. split; [done |].
      simpl. unfold retry_sleep_ms. split; [lia | by f_equal].
Qed.

(** X5. A source file that has gone missing uses up the same budget as a
    locked one: if each of the 10 iterations finds the source missing or
    the file in use, the staging gives up after 10 s of sleeping, having
    called [os.rename] only in the iterations that found the source, and
    the folders are left as they were. (A staging whose numbering has
    raised does not come to the loop.) *)
Theorem retries_share_one_budget (env : rename_env)
    (Hretry : ∀ i, (i < max_attempts)%nat -> retryable_at env i) :
  ∃ log, rename_retry env = Some (RenameExhausted, log) ∧
         slept_ms log = 10000 ∧
         rename_calls log = present_among env 10 ∧
         ∀ listing st f senv, ren senv = env ->
           rename_new_image listing st f senv
           = Some (st, match current_numbers listing ≫= next_number with
                       | Some _ => RenameFailed RenameExhausted
                       | None => Raised
                       end).
Proof.
  destruct (rename_loop_retryable env max_attempts 0 (S max_attempts))
    as (log & Hrun & Hslept & Hcalls);
    [done | intros i Hi; apply Hretry; lia | lia |].
  exists log. split; [exact Hrun |]. split; [exact Hslept |]. split; [exact Hcalls |].
  intros listing st f senv <-.
  destruct (current_numbers listing ≫= next_number) as [id|] eqn:Hnext.
  - by apply (rename_new_image_not_renamed _ _ _ _ _ _ _ Hnext Hrun).
  - by apply rename_new_image_raised.
Qed.

Lemma retries_share_one_budget_witness :
  ∃ log, rename_retry vanished = Some (RenameExhausted, log) ∧
         slept_ms log = 10000 ∧ rename_calls log = 0%nat.
Proof.
  destruct (retries_share_one_budget vanished) as (log & Hrun & Hslept & Hcalls & _).
  - intros i _. left. reflexivity.
  - exists log. split; [exact Hrun |]. split; [exact Hslept |]. exact Hcalls.
Defined.

(** *** The number a staging assigns *)

(** X7. The number a staging assigns is at least 1 and larger than every
    number found in the listing, so the name the file is renamed to is not
    in the listing: the rename never aims at a listed file. *)
Theorem assigned_id_is_fresh (listing : list string) (st st' : folders) (f : string)
    (env : stage_env) (r : stage_result) (id : Z)
    (Hrun : rename_new_image listing st f env = Some (st', r))
    (Hid : assigned_id r = Some id) :
  1 ≤ id ∧
  (∀ g n, g ∈ listing -> numeric_stem g = Some n -> n < id) ∧
  Py.str id +:+ (Py.splitext f).2 ∉ listing.
Proof.
  destruct (assigned_id_exceeds _ _ _ _ _ _ _ Hrun Hid) as [Hpos Hlt].
  split; [done |]. split; [done |].
  intros Hin. pose proof (Hlt _ _ Hin (numeric_stem_new f id ltac:(lia))). lia.
Qed.

Lemma assigned_id_is_fresh_witness :
  "8.png" ∉ ["7.jpg"; "003.png"; "notes.txt"; "scan.png"].
Proof.
  exact (proj2 (proj2 (assigned_id_is_fresh ["7.jpg"; "003.png"; "notes.txt"; "scan.png"]
                         {| intake := ∅; copied := ∅ |} _ "scan.png" smooth
                         (Staged 8 "8.png" "8_grayscale.png" true) 8 eq_refl eq_refl))).
Defined.

(** *** IDs never repeat *)

(** One arrival: an assigned ID exceeds every number of the folder, and
    the folder then holds it. *)
Lemma stage_step_increasing st f w env st' r k :
  0 ≤ k -> has_number_at_least k (intake st) ->
  stage (land st f) f w env = Some (st', r) ->
  match assigned_id r with
  | Some id => k < id ∧ has_number_at_least id (intake st')
  | None => has_number_at_least k (intake st')
  end.
Proof.
  intros Hk Hinv. unfold stage.
  destruct (wait_for_file w 10) as [wr|]; [|done]. simpl.
  assert (Hland : has_number_at_least k (intake (land st f))).
  { destruct Hinv as [->|(name & n & Hin & Hn & Hle)]; [by left | right].
    exists name, n. split; [|done]. simpl. apply elem_of_union. by right. }
  destruct (found wr); [|by intros [= <- <-]].
  intros Hrun. destruct (assigned_id r) as [id|] eqn:Hid.
  - destruct (assigned_id_exceeds _ _ _ _ _ _ _ Hrun Hid) as (Hpos & Hlt).
    destruct (rename_new_image_assigned _ _ _ _ _ _ _ Hrun Hid) as (_ & _ & Hintake & _).
    split.
    + destruct Hland as [->|(name & n & Hin & Hn & Hle)]; [lia |].
      apply elem_of_elements in Hin. pose proof (Hlt _ _ Hin Hn). lia.
    + right. exists (Py.str id +:+ (Py.splitext f).2), id.
      split; [rewrite Hintake; apply elem_of_union; left; by apply elem_of_singleton |].
      split; [apply numeric_stem_new; lia | lia].
  - pose proof (staging_unassigned _ _ _ _ _ _ Hrun Hid) as ->. exact Hland.
Qed.

Lemma stage_all_increasing arrivals : ∀ st k,
  0 ≤ k -> has_number_at_least k (intake st) ->
  ∃ st' results, stage_all st arrivals = Some (st', results) ∧
    StronglySorted Z.lt (assigned_ids results) ∧
    Forall (λ id, k < id) (assigned_ids results).
Proof.
  induction arrivals as [|a rest IH]; intros st k Hk Hinv.
  - exists st, []. split; [done |]. split; constructor.
  - destruct (stage_total (land st (file_name a)) (file_name a) (wenv a) (senv a))
      as (st1 & r & Hrun).
    pose proof (stage_step_increasing _ _ _ _ _ _ _ Hk Hinv Hrun) as Hstep.
    simpl. rewrite Hrun. simpl. unfold assigned_ids in *.
    destruct (assigned_id r) as [id|] eqn:Hid.
    + destruct Hstep as [Hlt Hinv1].
      destruct (IH st1 id ltac:(lia) Hinv1) as (st2 & rs & -> & Hsorted & Hall).
      exists st2, (r :: rs). split; [done |]. simpl. rewrite Hid.
      split; [by constructor |]. constructor; [done |].
      eapply Forall_impl; [exact Hall |]. intros x Hx. simpl in *. lia.
    + destruct (IH st1 k Hk Hstep) as (st2 & rs & -> & Hsorted & Hall).
      exists st2, (r :: rs). split; [done |]. simpl. by rewrite Hid.
Qed.

(** X20. IDs never repeat. Whatever the names under which the files land
    and whatever is in the folder at the start, and however the stagings
    end (the file never appearing, the rename refused or given up, the
    scan raising [ValueError] on a name, [os.makedirs] or the copy raising
    after the rename), the IDs given in a run are strictly increasing and
    at least 1. So are those of every first part of the run, which is what
    is staged when the watcher stops at an exception. *)
Theorem ids_strictly_increase (st : folders) (arrivals : list arrival) :
  ∃ st' results, stage_all st arrivals = Some (st', results) ∧
    length results = length arrivals ∧
    StronglySorted Z.lt (assigned_ids results) ∧
    Forall (λ id, 1 ≤ id) (assigned_ids results) ∧
    NoDup (assigned_ids results) ∧
    ∀ n, StronglySorted Z.lt (assigned_ids (take n results)).
Proof.
  destruct (stage_all_increasing arrivals st 0) as (st' & results & Hrun & Hsorted & Hall);
    [done | by left |].
  exists st', results. split; [exact Hrun |].
  split; [|split; [done |split; [|split]]]; [| | |].
  - clear Hsorted Hall. revert st st' results Hrun.
    induction arrivals as [|a rest IH]; intros st st' results; simpl.
    + by intros [= <- <-].
    + destruct (stage _ _ _ _) as [[st1 r]|]; [|done]. simpl.
      destruct (stage_all st1 rest) as [[st2 rs]|] eqn:Hrest; [|done]. simpl.
      intros [= <- <-]. simpl. f_equal. by apply (IH st1 st2).
  - eapply Forall_impl; [exact Hall |]. intros x Hx. simpl in *. lia.
  - clear Hall. induction Hsorted as [|x l Hl IH Hx]; [apply NoDup_nil_2 |].
    apply NoDup_cons_2; [|done].
    intros Hin. pose proof (proj1 (Forall_forall _ _) Hx x Hin). lia.
  - intros n. rewrite <- (take_drop n results) in Hsorted.
    unfold assigned_ids in *. rewrite omap_app in Hsorted.
    by apply StronglySorted_app_1_l in Hsorted.
Qed.

(** *** What the stagings of a run leave behind *)

(** Copies of different numbers have different names. *)
Lemma copy_names_differ (id1 id2 : Z) (ext1 ext2 : string) :
  0 ≤ id1 -> 0 ≤ id2 ->
  Py.str id1 +:+ "_grayscale" +:+ ext1 = Py.str id2 +:+ "_grayscale" +:+ ext2 ->
  id1 = id2.
Proof.
  intros Hid1 Hid2 Heq. apply PyMore.str_inj.
  rewrite <- (PyFacts.split_head_digits (Py.str id1) ("grayscale" +:+ ext1))
    by apply PyFacts.all_digits_str, Hid1.
  rewrite <- (PyFacts.split_head_digits (Py.str id2) ("grayscale" +:+ ext2))
    by apply PyFacts.all_digits_str, Hid2.
  exact (f_equal (Py.split_head "_") Heq).
Qed.

(** One arrival: nothing leaves [copied_images], and the one name that
    may enter it is the copy of the ID just assigned. *)
Lemma stage_step_copied st f w env st' r :
  stage (land st f) f w env = Some (st', r) ->
  copied st ⊆ copied st' ∧
  (∀ c, c ∈ copied st' ->
     c ∈ copied st ∨
     ∃ id, assigned_id r = Some id ∧
           c = Py.str id +:+ "_grayscale" +:+ (Py.splitext f).2) ∧
  (∀ id new c gray, r = Staged id new c gray ->
     c ∈ copied st' ∧ c = Py.str id +:+ "_grayscale" +:+ (Py.splitext f).2).
Proof.
  unfold stage. destruct (wait_for_file w 10) as [wr|]; [|done]. simpl.
  destruct (found wr); [|intros [= <- <-]; simpl; split; [done | split; [by left | done]]].
  intros Hrun. destruct (assigned_id r) as [id|] eqn:Hid.
  - destruct (assigned_id_exceeds _ _ _ _ _ _ _ Hrun Hid) as [Hpos _].
    destruct (rename_new_image_assigned _ _ _ _ _ _ _ Hrun Hid)
      as (_ & _ & _ & [(-> & _ & _ & Hc)|[(-> & _ & _ & Hc)|(-> & _ & Hc)]]);
      rewrite ?copy_name_new in Hc by lia; simpl in Hc; rewrite Hc.
    + split; [apply union_subseteq_r |]. split.
      * intros c [->%elem_of_singleton|Hin]%elem_of_union; [right; by exists id | by left].
      * intros id' new c gray [= <- _ <- _]. rewrite copy_name_new by lia.
        split; [apply elem_of_union; left; by apply elem_of_singleton | done].
    + destruct (copy_left env).
      * split; [apply union_subseteq_r |]. split; [|done].
        intros c [->%elem_of_singleton|Hin]%elem_of_union; [right; by exists id | by left].
      * split; [done |]. split; [by left | done].
    + split; [done |]. split; [by left | done].
  - pose proof (staging_unassigned _ _ _ _ _ _ Hrun Hid) as ->. simpl.
    split; [done |]. split; [by left |].
    intros id new c gray ->. discriminate Hid.
Qed.

Lemma stage_all_copies arrivals : ∀ st k,
  0 ≤ k -> has_number_at_least k (intake st) ->
  ∃ st' results, stage_all st arrivals = Some (st', results) ∧
    Forall (λ id, k < id) (assigned_ids results) ∧
    copied st ⊆ copied st' ∧
    (∀ c, c ∈ copied st' ->
       c ∈ copied st ∨
       ∃ id ext, id ∈ assigned_ids results ∧ c = Py.str id +:+ "_grayscale" +:+ ext) ∧
    (∀ c, c ∈ copies results ->
       c ∈ copied st' ∧
       ∃ id ext, id ∈ assigned_ids results ∧ c = Py.str id +:+ "_grayscale" +:+ ext) ∧
    NoDup (copies results).
Proof.
  induction arrivals as [|a rest IH]; intros st k Hk Hinv.
  - exists st, []. split; [done |]. split; [constructor |]. split; [done |].
    split; [by left |]. split; [|constructor].
    intros c Hc. by apply elem_of_nil in Hc.
  - destruct (stage_total (land st (file_name a)) (file_name a) (wenv a) (senv a))
      as (st1 & r & Hrun).
    pose proof (stage_step_increasing _ _ _ _ _ _ _ Hk Hinv Hrun) as Hstep.
    destruct (stage_step_copied _ _ _ _ _ _ Hrun) as (Hsub & Hnew & Hdone).
    simpl. rewrite Hrun. simpl. unfold assigned_ids, copies in *.
    destruct (assigned_id r) as [id|] eqn:Hid.
    + destruct Hstep as [Hlt Hinv1].
      destruct (IH st1 id ltac:(lia) Hinv1)
        as (st2 & rs & -> & Hall & Hsub2 & Hnew2 & Hdone2 & Hnodup).
      exists st2, (r :: rs). split; [done |]. simpl. rewrite Hid.
      split; [|split; [by transitivity (copied st1) |split; [|split]]].
      * constructor; [done |]. eapply Forall_impl; [exact Hall |].
        intros x Hx. simpl in *. lia.
      * intros c Hc. destruct (Hnew2 c Hc) as [Hc1|(id' & ext & Hin & ->)].
        -- destruct (Hnew c Hc1) as [Hc0|(id' & [= <-] & ->)]; [by left |].
           right. exists id, (Py.splitext (file_name a)).2.
           split; [apply elem_of_cons; by left | done].
        -- right. exists id', ext. split; [apply elem_of_cons; by right | done].
      * intros c Hc.
        assert (Hcases : (∃ new gray, r = Staged id new c gray)
                         ∨ c ∈ omap (λ r, match r with
                                           | Staged _ _ copy_filename _ => Some copy_filename
                                           | _ => None
                                           end) rs).
        { destruct r; simpl in Hc, Hid; try (by right); injection Hid as ->.
          apply elem_of_cons in Hc as [->|Hc]; [left; by eexists _, _ | by right]. }
        destruct Hcases as [(new & gray & Hr)|Hin].
        -- destruct (Hdone _ _ _ _ Hr) as [Hc1 ->]. split; [by apply Hsub2 |].
           exists id, (Py.splitext (file_name a)).2.
           split; [apply elem_of_cons; by left | done].
        -- destruct (Hdone2 c Hin) as (Hc2 & id' & ext & Hin' & ->).
           split; [done |]. exists id', ext.
           split; [apply elem_of_cons; by right | done].
      * destruct r; simpl in Hid |- *; try done. injection Hid as ->.
        apply NoDup_cons_2; [|done]. intros Hin.
        destruct (Hdone2 _ Hin) as (_ & id' & ext & Hin' & Heq).
        destruct (Hdone _ _ _ _ eq_refl) as [_ Hform]. rewrite Hform in Heq.
        pose proof (proj1 (Forall_forall _ _) Hall id' Hin') as Hlt'. simpl in Hlt'.
        apply copy_names_differ in Heq; lia.
    + destruct (IH st1 k Hk Hstep)
        as (st2 & rs & -> & Hall & Hsub2 & Hnew2 & Hdone2 & Hnodup).
      exists st2, (r :: rs). split; [done |]. simpl. rewrite Hid.
      assert (Hr : match r with
                   | Staged _ _ copy_filename _ => Some copy_filename
                   | _ => None
                   end = None) by (by destruct r).
      rewrite Hr.
      split; [done |]. split; [by transitivity (copied st1) |]. split; [|done].
      intros c Hc. destruct (Hnew2 c Hc) as [Hc1|?]; [|by right].
      destruct (Hnew c Hc1) as [Hc0|(id' & [=] & _)]. by left.
Qed.

(** X6. Staging is not transactional, and what the stagings of a run have
    done is kept: whatever the names of the files and however the stagings
    end, no name ever leaves [copied_images]; the copy of every staging
    that came to the end of its copy is there at the end of the run; no
    two stagings of the run have made a copy of the same name, so none has
    been written over by a later one; and every name that has entered
    [copied_images] is [<ID>_grayscale<ext>] for an ID assigned in the
    run. *)
Theorem staging_keeps_partial_progress (st : folders) (arrivals : list arrival) :
  ∃ st' results, stage_all st arrivals = Some (st', results) ∧
    copied st ⊆ copied st' ∧
    (∀ c, c ∈ copies results -> c ∈ copied st') ∧
    NoDup (copies results) ∧
    (∀ c, c ∈ copied st' -> c ∉ copied st ->
       ∃ id ext, id ∈ assigned_ids results ∧ c = Py.str id +:+ "_grayscale" +:+ ext).
Proof.
  destruct (stage_all_copies arrivals st 0)
    as (st' & results & Hrun & _ & Hsub & Hnew & Hdone & Hnodup); [done | by left |].
  exists st', results. split; [exact Hrun |]. split; [exact Hsub |].
  split; [intros c Hc; by apply Hdone |]. split; [exact Hnodup |].
  intros c Hc Hnot. by destruct (Hnew c Hc).
Qed.

Lemma staging_keeps_partial_progress_witness :
  ∃ st' results,
    stage_all {| intake := ∅; copied := {["old.png"]} |}
      [{| file_name := "a.png"; wenv := present; senv := copy_cut_short |};
       arriving "b.jpg"] = Some (st', results) ∧
    results = [CopyFailed 1 "1.png"; Staged 2 "2.jpg" "2_grayscale.jpg" true] ∧
    "old.png" ∈ copied st' ∧ "2_grayscale.jpg" ∈ copied st'.
Proof.
  destruct (staging_keeps_partial_progress {| intake := ∅; copied := {["old.png"]} |}
              [{| file_name := "a.png"; wenv := present; senv := copy_cut_short |};
               arriving "b.jpg"])
    as (st' & results & Hrun & Hsub & Hdone & _).
  exists st', results. split; [exact Hrun |].
  assert (Hresults : results = [CopyFailed 1 "1.png"; Staged 2 "2.jpg" "2_grayscale.jpg" true]).
  { vm_compute in Hrun. by injection Hrun as _ <-. }
  split; [exact Hresults |]. split.
  - apply (Hsub "old.png"). simpl. by apply elem_of_singleton.
  - apply Hdone. rewrite Hresults. simpl. apply elem_of_cons. by left.
Defined.

(** *** The stability wait at any timeout *)

(** X21. For every timeout in seconds, negative ones included,
    [wait_for_file] returns, after at most [2 * timeout + 1] sleeps (one
    sleep for a timeout that is not positive): [True] only at a check that
    finds the path, [False] only once more time than the timeout has
    passed. *)
Theorem wait_returns_for_any_timeout (w : wait_env) (timeout : Z) :
  ∃ r, wait_for_file w timeout = Some r ∧
       (sleeps r ≤ Z.to_nat (2 * timeout) + 1)%nat ∧
       waited_ms r = slept_until w (sleeps r) ∧
       (found r = true -> exists_at w (sleeps r) = true) ∧
       (found r = false -> timeout * 1000 < waited_ms r).
Proof.
  destruct (Z.le_gt_cases 0 timeout) as [Hpos|Hneg].
  - destruct (wait_loop_returns w (timeout * 1000) (wait_fuel timeout) 0)
      as (r & Hr & _ & Hw & _ & Ht & Hf).
    { simpl. lia. }
    { simpl. unfold wait_fuel. lia. }
    { lia. }
    exists r. split; [exact Hr |]. split; [|split; [done |split]].
    + pose proof (slept_until_lower w (sleeps r)).
      destruct (found r) eqn:Hfound.
      * destruct Ht as [_ Ht]; [done |]. lia.
      * destruct Hf as (_ & n & Hn & Hle); [done |].
        pose proof (slept_until_lower w n). lia.
    + intros Hfound. by apply Ht.
    + intros Hfound. by apply Hf.
  - unfold wait_for_file, wait_fuel. replace (Z.to_nat (2 * timeout)) with 0%nat by lia.
    simpl. destruct (exists_at w 0) eqn:H0.
    + eexists. split; [done |]. simpl. repeat split; try done; lia.
    + destruct (Z.ltb_spec (timeout * 1000) (0 + poll_ms + Z.of_N (lag w 0))) as [_|Hle];
        [|unfold poll_ms in Hle; lia].
      eexists. split; [done |]. simpl. unfold poll_ms.
      split; [lia |]. split; [done |]. split; [done |]. intros _. lia.
Qed.

Lemma wait_returns_for_any_timeout_witness :
  ∃ r, wait_for_file {| exists_at := λ _, false; lag := λ _, 0%N |} 0 = Some r ∧
       (sleeps r ≤ 1)%nat ∧ found r = false.
Proof.
  destruct (wait_returns_for_any_timeout {| exists_at := λ _, false; lag := λ _, 0%N |} 0)
    as (r & Hr & Hsleeps & _).
  exists r. split; [exact Hr |]. split; [exact Hsleeps |].
  vm_compute in Hr. by injection Hr as <-.
Defined.

(** *** The captures of the webcam loop *)

Lemma capture_stem timestamp :
  Py.splitext (Webcam.capture_filename timestamp) = ("capture_" +:+ timestamp, ".png").
Proof.
  unfold Webcam.capture_filename. rewrite <- PyFacts.app_assoc.
  by rewrite PyMore.splitext_app_ext.
Qed.

(** A base name that starts with the letter c is not made of digits. *)
Lemma capture_not_digits timestamp : Py.isdigit ("capture_" +:+ timestamp) = false.
Proof. by apply PyFacts.isdigit_ascii_head. Qed.

Lemma capture_unnumbered timestamp :
  numeric_stem (Webcam.capture_filename timestamp) = None.
Proof.
  unfold numeric_stem. rewrite capture_stem. cbn [fst]. by rewrite capture_not_digits.
Qed.

(** Captures arrive in rank, whatever their rank. *)
Lemma captures_in_rank arrivals : ∀ k,
  Forall (λ a, ∃ timestamp, file_name a = Webcam.capture_filename timestamp) arrivals ->
  arrive_in_rank k arrivals = true.
Proof.
  induction arrivals as [|a rest IH]; intros k Hall; [done |].
  apply Forall_cons in Hall as [[timestamp Ha] Hall].
  cbn [arrive_in_rank]. rewrite (IH (k + 1) Hall), andb_true_r.
  unfold below_rank, unreadable. rewrite Ha, capture_unnumbered, capture_stem. cbn [fst].
  by rewrite capture_not_digits.
Qed.

(** X8. The files the webcam loop saves, [capture_<timestamp>.png], never
    have a numeric name, whatever the timestamp. So the captures of a
    session, each staged before the next one lands in the initially empty
    folder, are numbered 1..N in the order they were taken. *)
Theorem captures_numbered_in_order (arrivals : list arrival)
    (Hcaptures : Forall (λ a, ∃ timestamp, file_name a = Webcam.capture_filename timestamp)
                        arrivals)
    (Hstaged : Forall is_staged arrivals) :
  Forall arrives_unnumbered arrivals ∧ ids_in_arrival_order arrivals.
Proof.
  assert (Hnames : Forall arrives_unnumbered arrivals).
  { eapply Forall_impl; [exact Hcaptures |].
    intros a [timestamp Ha]. unfold arrives_unnumbered. rewrite Ha.
    apply capture_unnumbered. }
  split; [exact Hnames |].
  apply ids_in_arrival_order_iff; [done |]. by apply captures_in_rank.
Qed.

Lemma captures_numbered_in_order_witness :
  ids_in_arrival_order
    [Webcam.capture "20250301_101500" present smooth;
     Webcam.capture "20250301_101502" present smooth].
Proof.
  apply captures_numbered_in_order.
  - apply Forall_cons_2; [by eexists |]. apply Forall_cons_2; [by eexists |]. apply Forall_nil_2.
  - apply Forall_cons_2; [split; reflexivity |].
    apply Forall_cons_2; [split; reflexivity |]. apply Forall_nil_2.
Defined.

End StagerMore.

(** ** More on the Rectangle Extractor *)

Module ExtractorMore.
Import Extractor ExtractorSpec ExtractorFacts MoreSpec.

(** *** Border suppression *)

Lemma length_zero_row row : length (zero_row row) = length row.
Proof. unfold zero_row. apply length_fmap. Qed.

Lemma zero_row_idem row : zero_row (zero_row row) = zero_row row.
Proof. unfold zero_row. by rewrite <- list_fmap_compose. Qed.

(** The row of the mask after the four assignments. *)
Lemma zero_border_row (mask : image) r row :
  mask !! r = Some row ->
  zero_border mask !! r
  = Some (<[(length row - 1)%nat := 0]>
            (<[0%nat := 0]>
               (if decide (r = 0%nat ∨ S r = length mask) then zero_row row else row))).
Proof.
  intros Hrow. pose proof (lookup_lt_Some _ _ _ Hrow) as Hr.
  assert (Hfirst : alter zero_row 0%nat mask !! r
                   = Some (if decide (r = 0%nat) then zero_row row else row)).
  { case_decide as H0.
    - subst r. by rewrite list_lookup_alter_eq, Hrow.
    - by rewrite list_lookup_alter_ne, Hrow by done. }
  unfold zero_border. rewrite !list_lookup_fmap, length_alter.
  destruct (decide ((length mask - 1)%nat = r)) as [Hl|Hl].
  - rewrite Hl, list_lookup_alter_eq, Hfirst. simpl.
    destruct (decide (r = 0%nat));
      (destruct (decide (r = 0%nat ∨ S r = length mask)) as [_|Hno];
       [|exfalso; apply Hno; right; lia]);
      rewrite ?zero_row_idem; by rewrite !length_insert, length_zero_row.
  - rewrite list_lookup_alter_ne, Hfirst by done. simpl.
    destruct (decide (r = 0%nat)) as [H0|H0];
      destruct (decide (r = 0%nat ∨ S r = length mask)) as [Hyes|Hno].
    + by rewrite !length_insert, length_zero_row.
    + exfalso. apply Hno. by left.
    + exfalso. destruct Hyes; lia.
    + by rewrite !length_insert.
Qed.

Lemma length_zero_border (mask : image) : length (zero_border mask) = length mask.
Proof. unfold zero_border. by rewrite !length_fmap, !length_alter. Qed.

(** X1. After the border suppression every pixel on the outer frame of the
    mask (first or last row, first or last column) is 0, whatever it was. *)
Theorem border_is_suppressed (mask : image) (r c : nat)
    (Hframe : on_frame mask r c) :
  pixel (zero_border mask) r c = Some 0.
Proof.
  destruct Hframe as (row & Hrow & Hc & Hedge).
  unfold pixel. rewrite (zero_border_row _ _ _ Hrow). simpl.
  assert (Hlen : length (zero_row row) = length row) by (unfold zero_row; apply length_fmap).
  case_decide as Hr.
  - (* a cleared row *)
    assert (Hz : Forall (λ v, v = 0)
                   (<[(length row - 1)%nat := 0]> (<[0%nat := 0]> (zero_row row))))
      by (apply Forall_insert; [apply Forall_insert |]; [apply zero_row_zero | done..]).
    destruct (lookup_lt_is_Some_2
                (<[(length row - 1)%nat := 0]> (<[0%nat := 0]> (zero_row row))) c) as [v Hv].
    { by rewrite !length_insert, Hlen. }
    rewrite Hv. f_equal. by apply (Forall_lookup_1 _ _ _ _ Hz Hv).
  - destruct Hedge as [Hr0|[Hr1|[Hc0|Hc1]]]; [tauto | tauto | |].
    + subst c. destruct (decide ((length row - 1)%nat = 0%nat)) as [Hl|Hl].
      * rewrite Hl. apply list_lookup_insert_eq. by rewrite length_insert.
      * rewrite list_lookup_insert_ne by done. by apply list_lookup_insert_eq.
    + replace (length row - 1)%nat with c by lia.
      apply list_lookup_insert_eq. by rewrite length_insert.
Qed.

Lemma border_is_suppressed_witness :
  pixel (zero_border [[255; 255; 255]; [255; 255; 255]; [255; 255; 255]]) 1 2 = Some 0.
Proof.
  apply border_is_suppressed. exists [255; 255; 255].
  split; [reflexivity |]. split; [simpl; lia |]. right. right. right. reflexivity.
Defined.

(** X2. The border suppression keeps the shape of the mask (as many rows,
    each as long as before) and every pixel strictly inside the frame. *)
Theorem interior_is_kept (mask : image) :
  length (zero_border mask) = length mask ∧
  (∀ r row, mask !! r = Some row ->
     ∃ row', zero_border mask !! r = Some row' ∧ length row' = length row) ∧
  (∀ r c, inside_frame mask r c -> pixel (zero_border mask) r c = pixel mask r c).
Proof.
  split; [|split].
  - apply length_zero_border.
  - intros r row Hrow. eexists. split; [by apply zero_border_row |].
    rewrite !length_insert. case_decide; [|done]. unfold zero_row. apply length_fmap.
  - intros r c (row & Hrow & Hr0 & Hr1 & Hc0 & Hc1).
    unfold pixel. rewrite (zero_border_row _ _ _ Hrow), Hrow. simpl.
    rewrite decide_False by lia.
    rewrite list_lookup_insert_ne by lia. by rewrite list_lookup_insert_ne by lia.
Qed.

Lemma interior_is_kept_witness :
  pixel (zero_border [[255; 255; 255]; [255; 255; 255]; [255; 255; 255]]) 1 1 = Some 255.
Proof.
  destruct (interior_is_kept [[255; 255; 255]; [255; 255; 255]; [255; 255; 255]])
    as (_ & _ & Hin).
  rewrite Hin; [reflexivity |]. exists [255; 255; 255].
  split; [reflexivity |]. simpl. lia.
Defined.

Lemma zero_border_Forall (P : Z -> Prop) (mask : image) :
  P 0 -> Forall (Forall P) mask -> Forall (Forall P) (zero_border mask).
Proof.
  intros H0 Hmask. apply Forall_lookup. intros r row' Hrow'.
  destruct (lookup_lt_is_Some_2 mask r) as [row Hrow].
  { rewrite <- (length_zero_border mask). by apply lookup_lt_Some in Hrow'. }
  rewrite (zero_border_row _ _ _ Hrow) in Hrow'. injection Hrow' as <-.
  apply Forall_insert; [apply Forall_insert |]; try done.
  case_decide.
  - unfold zero_row. apply Forall_fmap. by apply Forall_true.
  - by apply (Forall_lookup_1 _ _ _ _ Hmask Hrow).
Qed.

(** X3. The mask handed to the contour search is binary: whatever the
    image, each of its pixels is 0 or 255. *)
Theorem mask_is_binary (img : image) :
  Forall (Forall (λ v, v = 0 ∨ v = 255)) (zero_border (segment img)) ∧
  length (zero_border (segment img)) = length img.
Proof.
  split.
  - apply zero_border_Forall; [by left |].
    unfold segment, threshold. apply Forall_fmap, Forall_true. intros row. simpl.
    apply Forall_fmap, Forall_true. intros v. simpl. unfold threshold_pixel.
    destruct (50 <? v); [by left | by right].
  - rewrite length_zero_border. unfold segment, threshold. apply length_fmap.
Qed.

(** *** What [process_image] does to the file system *)

Section WithGeometry.
Context `{G : Geometry}.

(** [process_image] either leaves the file system alone or saves a
    non-empty list of centers. *)
Lemma process_image_cases (fs : gmap path file) (filepath : path) :
  ((process_image fs filepath).1 = fs ∧
   (process_image fs filepath).2 ≠ ProcessingError ∧
   ∀ txt cs, (process_image fs filepath).2 ≠ CoordinatesSaved txt cs) ∨
  ∃ c cs, process_image fs filepath
          = (write_coords fs (coords_path filepath) (c :: cs),
             CoordinatesSaved (coords_path filepath) (c :: cs)).
Proof.
  unfold process_image.
  destruct (fs !! filepath) as [f|]; [|by left].
  destruct (negb (readable f)); [by left |].
  destruct (imread f) as [img|]; [|by left].
  rewrite find_rectangles_centers.
  destruct (omap center_of _) as [|c cs]; [by left |].
  right. by exists c, cs.
Qed.

(** X17. [process_image] changes no path but that of the coordinate file,
    and changes that one only when it ends with [CoordinatesSaved]; it
    never ends in its exception handler because of the arithmetic, and it
    never saves an empty list of centers. *)
Theorem process_image_effects (fs : gmap path file) (filepath : path) :
  (∀ q, q ≠ coords_path filepath -> (process_image fs filepath).1 !! q = fs !! q) ∧
  (process_image fs filepath).2 ≠ ProcessingError ∧
  ((∀ txt cs, (process_image fs filepath).2 ≠ CoordinatesSaved txt cs) ->
     (process_image fs filepath).1 = fs) ∧
  (∀ txt cs, (process_image fs filepath).2 = CoordinatesSaved txt cs ->
     txt = coords_path filepath ∧ cs ≠ [] ∧
     (process_image fs filepath).1 = write_coords fs txt cs).
Proof.
  destruct (process_image_cases fs filepath) as [(Hfs & Herr & Hnot)|(c & cs & Hsaved)].
  - rewrite Hfs. split; [done |]. split; [done |]. split; [done |].
    intros txt cs Heq. by destruct (Hnot txt cs).
  - rewrite Hsaved. simpl. split; [|split; [done |split]].
    + intros q Hq. unfold write_coords. by apply lookup_insert_ne.
    + intros Hnot. by destruct (Hnot (coords_path filepath) (c :: cs)).
    + by intros txt cs' [= <- <-].
Qed.

(** X18. Running [process_image] again on the same image changes nothing
    more and ends the same way, provided the image is not stored under the
    name of its own coordinate file. *)
Theorem process_image_idempotent (fs : gmap path file) (filepath : path)
    (Hdistinct : coords_path filepath ≠ filepath) :
  process_image (process_image fs filepath).1 filepath = process_image fs filepath.
Proof.
  destruct (process_image_cases fs filepath) as [(Hsame & _)|(c & cs & Hsaved)].
  - by rewrite Hsame.
  - rewrite Hsaved. simpl fst.
    assert (Hlook : write_coords fs (coords_path filepath) (c :: cs) !! filepath
                    = fs !! filepath)
      by (unfold write_coords; by apply lookup_insert_ne).
    unfold process_image in Hsaved |- *. rewrite Hlook.
    destruct (fs !! filepath) as [f|]; [|done].
    destruct (negb (readable f)); [done |].
    destruct (imread f) as [img|]; [|done].
    destruct (find_rectangles img) as [[|c' cs']|]; try done.
    injection Hsaved as Hfs Hcs. simplify_eq.
    unfold write_coords. by rewrite insert_insert_eq.
Qed.

End WithGeometry.

Lemma process_image_effects_witness :
  let fs : gmap path file :=
    {[ ("copied_images", "1_grayscale.png") := {| readable := true; data := OtherData |} ]} in
  (@process_image sample_geometry fs ("copied_images", "1_grayscale.png")).1 = fs.
Proof.
  intros fs.
  destruct (@process_image_effects sample_geometry fs ("copied_images", "1_grayscale.png"))
    as (_ & _ & Hsame & _).
  apply Hsame. intros txt cs. discriminate.
Defined.

Lemma process_image_idempotent_witness :
  let fs : gmap path file :=
    {[ ("copied_images", "1_grayscale.png") :=
         {| readable := true; data := ImageData [[0; 0; 0]; [0; 0; 0]; [0; 0; 0]] |} ]} in
  @process_image sample_geometry
    (@process_image sample_geometry fs ("copied_images", "1_grayscale.png")).1
    ("copied_images", "1_grayscale.png")
  = @process_image sample_geometry fs ("copied_images", "1_grayscale.png").
Proof.
  intros fs. apply (@process_image_idempotent sample_geometry). intros [=].
Defined.

(** X16. The coordinate files of two staged copies are the same file
    exactly when the copies carry the same number: copies with different
    numbers never write over each other's coordinates, while copies with
    the same number and different extensions share one file. *)
Theorem coords_file_per_number (directory : string) (id1 id2 : Z) (ext1 ext2 : string)
    (Hid1 : 0 ≤ id1) (Hid2 : 0 ≤ id2) :
  coords_path (join directory (Py.str id1 +:+ "_grayscale" +:+ ext1))
  = coords_path (join directory (Py.str id2 +:+ "_grayscale" +:+ ext2))
  ↔ id1 = id2.
Proof.
  assert (Hpath : ∀ id ext, 0 ≤ id ->
            coords_path (join directory (Py.str id +:+ "_grayscale" +:+ ext))
            = join directory (Py.str id +:+ "_coords.txt")).
  { intros id ext Hid. unfold coords_path, join, basename, dirname. simpl.
    do 2 f_equal.
    apply (PyFacts.split_head_digits _ _ (PyFacts.all_digits_str id Hid)). }
  rewrite !Hpath by done. split; [|by intros ->].
  intros [= Heq]. apply PyMore.str_inj.
  rewrite <- (PyFacts.split_head_digits (Py.str id1) "coords.txt")
    by apply PyFacts.all_digits_str, Hid1.
  rewrite <- (PyFacts.split_head_digits (Py.str id2) "coords.txt")
    by apply PyFacts.all_digits_str, Hid2.
  by rewrite Heq.
Qed.

Lemma coords_file_per_number_witness :
  coords_path ("copied_images", "3_grayscale.png")
  = coords_path ("copied_images", "3_grayscale.jpg").
Proof.
  apply (proj2 (coords_file_per_number "copied_images" 3 3 ".png" ".jpg"
                  ltac:(lia) ltac:(lia))).
  reflexivity.
Defined.

End ExtractorMore.

(** ** More on [image processing.py] *)

Module ImageProcessingMore.
Import Extractor ImageProcessing ImageProcessingSpec ImageProcessingHandler MoreSpec.

(** The six image extensions are extensions in lower case. *)
Lemma image_ext_shape (e : string) :
  is_image_ext e = true ->
  Py.is_extension e = true ∧ e ≠ "" ∧ Py.lower e = e ∧ e ≠ ".txt".
Proof.
  unfold is_image_ext, IMAGE_EXTENSIONS. intros He%bool_decide_eq_true.
  repeat (apply elem_of_cons in He as [->|He]; [by repeat split |]).
  by apply elem_of_nil in He.
Qed.

Lemma get_new_filename_image g p :
  is_image_path p = true ->
  get_new_filename g p
  = ({| image_counter := image_counter g + 1; text_counter := text_counter g |},
     join (dirname p)
       ("image_" +:+ Py.str (image_counter g + 1)
        +:+ Py.lower (Py.splitext (basename p)).2)).
Proof.
  unfold is_image_path, get_new_filename.
  destruct (Py.splitext (basename p)) as [name ext]. simpl. by intros ->.
Qed.

Lemma image_name_is_image (n : Z) (e : string) :
  is_image_ext e = true ->
  Py.splitext ("image_" +:+ Py.str n +:+ e) = ("image_" +:+ Py.str n, e).
Proof.
  intros (Hext & Hne & _)%image_ext_shape.
  rewrite <- PyFacts.app_assoc. by apply PyMore.splitext_app_ext.
Qed.

Lemma image_name_again_image (directory : string) (n : Z) (p : path) :
  is_image_path p = true ->
  is_image_path
    (join directory ("image_" +:+ Py.str n +:+ Py.lower (Py.splitext (basename p)).2))
  = true.
Proof.
  intros Himage. unfold is_image_path in *. unfold join, basename at 1. cbn [snd].
  rewrite image_name_is_image by exact Himage. cbn [snd].
  destruct (image_ext_shape _ Himage) as (_ & _ & -> & _). exact Himage.
Qed.

(** X9. Images are numbered densely in the order of their events,
    whatever other files come in between: after any run of events, the next
    image file is called [image_<k+1><ext>], [k] being the number of images
    of the run and [<ext>] its own extension in lower case; the new name is
    again the name of an image. *)
Theorem images_numbered_densely (paths : list path) (p : path)
    (Himage : is_image_path p = true) :
  get_new_filename (rename_all initial paths).1 p
  = ({| image_counter := images_among paths + 1; text_counter := 0 |},
     join (dirname p)
       ("image_" +:+ Py.str (images_among paths + 1)
        +:+ Py.lower (Py.splitext (basename p)).2)) ∧
  is_image_path (get_new_filename (rename_all initial paths).1 p).2 = true.
Proof.
  destruct (ImageProcessingClaims.rename_all_counters paths initial) as [Ht Hi].
  simpl in Ht, Hi. rewrite get_new_filename_image by done. rewrite Ht, Hi.
  split; [done |]. by apply image_name_again_image.
Qed.

Lemma images_numbered_densely_witness :
  (get_new_filename
     (rename_all initial [("in", "a.png"); ("in", "notes.txt"); ("in", "b.bmp")]).1
     ("in", "Photo.JPG")).2
  = ("in", "image_3.jpg").
Proof.
  destruct (images_numbered_densely
              [("in", "a.png"); ("in", "notes.txt"); ("in", "b.bmp")] ("in", "Photo.JPG"))
    as [Hname _]; [reflexivity |].
  rewrite Hname. reflexivity.
Defined.

Lemma get_new_filename_other (g : globals) (p : path) :
  is_image_path p = false -> is_txt_path p = false -> get_new_filename g p = (g, p).
Proof.
  unfold is_image_path, is_txt_path, get_new_filename.
  destruct (Py.splitext (basename p)) as [name ext]. simpl.
  intros -> ->. by destruct p.
Qed.

(** X12. Text files are not told apart: two [.txt] files of one folder
    that arrive with no image between them are given the same new path. *)
Theorem text_files_collide (g : globals) (p q : path)
    (Hp : is_txt_path p = true) (Hq : is_txt_path q = true)
    (Hfolder : dirname p = dirname q) :
  (get_new_filename (get_new_filename g p).1 q).2 = (get_new_filename g p).2.
Proof.
  rewrite (ImageProcessingClaims.get_new_filename_txt g p Hp). simpl.
  rewrite (ImageProcessingClaims.get_new_filename_txt g q Hq). simpl.
  by rewrite Hfolder.
Qed.

Lemma text_files_collide_witness :
  (get_new_filename (get_new_filename initial ("in", "a.txt")).1 ("in", "b.txt")).2
  = ("in", "coords_0.txt").
Proof.
  rewrite (text_files_collide initial ("in", "a.txt") ("in", "b.txt"));
    reflexivity.
Defined.

(** *** The handler *)

Section WithGeometry.
Context `{G : Geometry} `{W : Imwrite}.

(** The handler on an image file that is there and can be renamed. *)
Lemma on_created_image (g : globals) (fs : gmap path file) (p : path) (f : file) :
  is_image_path p = true -> fs !! p = Some f ->
  on_created g fs (Watch.file_created p.1 p.2) true
  = ((get_new_filename g p).1,
     (process_image (rename_file fs p (get_new_filename g p).2) (get_new_filename g p).2).1,
     Processed (get_new_filename g p).2
       (process_image (rename_file fs p (get_new_filename g p).2)
          (get_new_filename g p).2).2).
Proof.
  intros Himage Hthere.
  assert (Hev : Watch.src_path (Watch.file_created p.1 p.2) = p) by (by destruct p).
  pose proof (image_name_again_image (dirname p) (image_counter g + 1) p Himage) as Hagain.
  unfold on_created. cbn [Watch.is_directory Watch.file_created]. rewrite Hev.
  fold (Watch.file_created p.1 p.2).
  rewrite get_new_filename_image by done. cbn [fst snd].
  rewrite Hthere, bool_decide_eq_true_2 by (by eexists). cbn [andb].
  unfold is_image_path in Hagain.
  destruct (Py.splitext (basename _)) as [stem ext]. cbn [snd] in Hagain. rewrite Hagain.
  by destruct (process_image _ _).
Qed.

(** X11. For the creation of an image file that is there and can be
    renamed, the handler moves the file to [image_<n+1><ext>], leaves
    nothing under the old path (if it differs), and runs [process_image] on
    the new path, where it finds the content of the file. *)
Theorem image_event_is_processed (g : globals) (fs : gmap path file)
    (p : path) (f : file)
    (Himage : is_image_path p = true) (Hthere : fs !! p = Some f) :
  let new_filepath := (get_new_filename g p).2 in
  let fs1 := rename_file fs p new_filepath in
  on_created g fs (Watch.file_created p.1 p.2) true
  = ((get_new_filename g p).1, (process_image fs1 new_filepath).1,
     Processed new_filepath (process_image fs1 new_filepath).2) ∧
  fs1 !! new_filepath = Some f ∧
  (new_filepath ≠ p -> fs1 !! p = None) ∧
  image_counter (get_new_filename g p).1 = image_counter g + 1.
Proof.
  intros new_filepath fs1. subst new_filepath fs1.
  split; [by apply (on_created_image g fs p f) |].
  rewrite get_new_filename_image by done. cbn [fst snd image_counter].
  unfold rename_file. rewrite Hthere.
  split; [apply lookup_insert_eq |]. split; [|done].
  intros Hne. rewrite lookup_insert_ne by done. apply lookup_delete_eq.
Qed.

Lemma rename_file_same (fs : gmap path file) (p : path) : rename_file fs p p = fs.
Proof.
  unfold rename_file. destruct (fs !! p) as [f|] eqn:Hf; [|done].
  rewrite insert_delete_eq. by apply insert_id.
Qed.

Lemma not_image_not_processed (g : globals) (p : path) :
  is_image_path p = false -> is_image_path (get_new_filename g p).2 = false.
Proof.
  intros Hnot. destruct (is_txt_path p) eqn:Htxt.
  - rewrite (ImageProcessingClaims.get_new_filename_txt g p Htxt).
    unfold is_image_path, join, basename at 1. cbn [snd].
    rewrite <- PyFacts.app_assoc. by rewrite PyMore.splitext_app_ext.
  - by rewrite get_new_filename_other.
Qed.

(** X10. A file that is not an image is never handed to [process_image]:
    a [.txt] file is moved to [coords_<n>.txt] and left there, any other
    file keeps its path and the file system is left as it was; in neither
    case does a counter move. *)
Theorem non_images_are_not_processed (g : globals) (fs : gmap path file)
    (p : path) (f : file)
    (Hnot_image : is_image_path p = false) (Hthere : fs !! p = Some f) :
  on_created g fs (Watch.file_created p.1 p.2) true
  = (g, rename_file fs p (get_new_filename g p).2,
     IgnoredNonImage (get_new_filename g p).2) ∧
  (is_txt_path p = true ->
     (get_new_filename g p).2
     = join (dirname p) ("coords_" +:+ Py.str (image_counter g) +:+ ".txt")) ∧
  (is_txt_path p = false ->
     (get_new_filename g p).2 = p ∧ rename_file fs p (get_new_filename g p).2 = fs).
Proof.
  assert (Hev : Watch.src_path (Watch.file_created p.1 p.2) = p) by (by destruct p).
  pose proof (not_image_not_processed g p Hnot_image) as Hnew.
  assert (Hg : (get_new_filename g p).1 = g).
  { destruct (is_txt_path p) eqn:Htxt.
    - by rewrite (ImageProcessingClaims.get_new_filename_txt g p Htxt).
    - by rewrite get_new_filename_other. }
  split; [|split].
  - unfold on_created. cbn [Watch.is_directory Watch.file_created]. rewrite Hev.
    destruct (get_new_filename g p) as [g1 new_filepath]. cbn [fst snd] in *. subst g1.
    rewrite Hthere, bool_decide_eq_true_2 by (by eexists). cbn [andb].
    unfold is_image_path in Hnew.
    destruct (Py.splitext (basename new_filepath)) as [stem ext]. cbn [snd] in Hnew.
    by rewrite Hnew.
  - intros Htxt. by rewrite (ImageProcessingClaims.get_new_filename_txt g p Htxt).
  - intros Htxt. rewrite get_new_filename_other by done. split; [done |].
    apply rename_file_same.
Qed.

(** X14. An image whose rename fails still uses up a number: the counter
    is incremented before the rename is tried, nothing is processed and the
    file system is left as it was, so the image after it is numbered two
    higher than the one before it. A file that has gone before the rename
    fails in the same way. *)
Theorem failed_rename_uses_a_number (g : globals) (fs : gmap path file) (p q : path)
    (Himage : is_image_path p = true) (Hnext : is_image_path q = true) :
  on_created g fs (Watch.file_created p.1 p.2) false
  = ({| image_counter := image_counter g + 1; text_counter := text_counter g |},
     fs, RenameError) ∧
  (fs !! p = None ->
     on_created g fs (Watch.file_created p.1 p.2) true
     = ({| image_counter := image_counter g + 1; text_counter := text_counter g |},
        fs, RenameError)) ∧
  (get_new_filename (on_created g fs (Watch.file_created p.1 p.2) false).1.1 q).2
  = join (dirname q)
      ("image_" +:+ Py.str (image_counter g + 2)
       +:+ Py.lower (Py.splitext (basename q)).2).
Proof.
  assert (Hev : Watch.src_path (Watch.file_created p.1 p.2) = p) by (by destruct p).
  assert (Hfail : on_created g fs (Watch.file_created p.1 p.2) false
                  = ({| image_counter := image_counter g + 1;
                        text_counter := text_counter g |}, fs, RenameError)).
  { unfold on_created. cbn [Watch.is_directory Watch.file_created]. rewrite Hev.
    by rewrite get_new_filename_image by done. }
  split; [exact Hfail |]. split.
  - intros Hgone. unfold on_created. cbn [Watch.is_directory Watch.file_created].
    rewrite Hev, get_new_filename_image by done. rewrite Hgone.
    by rewrite bool_decide_eq_false_2 by (by intros [? ?]).
  - rewrite Hfail. cbn [fst]. rewrite get_new_filename_image by done.
    cbn [snd image_counter].
    by replace (image_counter g + 2) with (image_counter g + 1 + 1) by lia.
Qed.

(** The mask has the directory and the extension of the image. *)
Lemma bw_path_shape (p : path) :
  is_image_path p = true ->
  dirname (bw_path p) = dirname p ∧
  (Py.splitext (basename (bw_path p))).2 = (Py.splitext (basename p)).2.
Proof.
  intros Himage. pose proof (PyFacts.splitext_extension (basename p)) as Hext.
  unfold is_image_path in Himage. unfold bw_path.
  destruct (Py.splitext (basename p)) as [stem ext]. cbn [snd] in Himage, Hext |- *.
  destruct (image_ext_shape _ Himage) as (_ & Hne & _).
  assert (Hext_ne : ext ≠ "") by (intros ->; by apply Hne).
  split; [done |]. unfold join, basename at 1. cbn [snd].
  rewrite <- PyFacts.app_assoc.
  rewrite PyMore.splitext_app_ext; [done | exact Hext | exact Hext_ne |].
  unfold Py.all_dots. rewrite PyFacts.all_chars_app. apply andb_false_r.
Qed.

(** What [process_image] leaves at the path of the mask. *)
Lemma process_image_mask (fs : gmap path file) (p : path) (f : file) (img : image) :
  fs !! p = Some f -> readable f = true -> imread f = Some img ->
  (ImageProcessing.process_image fs p).1 !! bw_path p
  = match imwrite (bw_path p) (segment img) with
    | Some saved => Some (written saved)
    | None => fs !! bw_path p
    end.
Proof.
  intros Hthere Hreadable Hdecoded.
  unfold ImageProcessing.process_image. rewrite Hthere, Hreadable, Hdecoded. cbn [negb].
  assert (Hne : ImageProcessing.coords_path p ≠ bw_path p)
    by (intros Heq; symmetry in Heq; by apply (ExtractorFacts.bw_path_not_coords_path p)).
  destruct (find_rectangles img) as [[|c cs]|]; cbn [fst];
    unfold write_coords; rewrite ?(lookup_insert_ne _ _ _ _ Hne);
    destruct (imwrite _ _); by rewrite ?lookup_insert_eq.
Qed.

(** X13. The mask that [process_image] saves next to a decoded image is
    called [<stem>_bw<ext>], with the extension of the image, so its name
    is again that of an image. When [cv2.imwrite] writes it, it is there
    after the run whatever the outcome, holding what the library has made
    of the mask, and its own creation event makes the handler take the
    next image number, move it to [image_<n+1><ext>] and run
    [process_image] on it in turn. When [cv2.imwrite] writes nothing, the
    path of the mask is left as it was. *)
Theorem saved_mask_is_processed_again (g : globals) (fs : gmap path file)
    (p : path) (f : file) (img : image)
    (Himage : is_image_path p = true) (Hthere : fs !! p = Some f)
    (Hreadable : readable f = true) (Hdecoded : imread f = Some img) :
  let fs1 := (ImageProcessing.process_image fs p).1 in
  let mask_path := bw_path p in
  is_image_path mask_path = true ∧
  (imwrite mask_path (segment img) = None -> fs1 !! mask_path = fs !! mask_path) ∧
  (∀ saved, imwrite mask_path (segment img) = Some saved ->
     let new_filepath :=
       join (dirname p)
         ("image_" +:+ Py.str (image_counter g + 1)
          +:+ Py.lower (Py.splitext (basename p)).2) in
     let fs2 := rename_file fs1 mask_path new_filepath in
     fs1 !! mask_path = Some (written saved) ∧
     on_created g fs1 (Watch.file_created mask_path.1 mask_path.2) true
     = ({| image_counter := image_counter g + 1; text_counter := text_counter g |},
        (ImageProcessing.process_image fs2 new_filepath).1,
        Processed new_filepath (ImageProcessing.process_image fs2 new_filepath).2) ∧
     fs2 !! new_filepath = Some (written saved)).
Proof.
  intros fs1 mask_path. subst fs1 mask_path.
  destruct (bw_path_shape p Himage) as [Hdir Hext].
  assert (Hmask : is_image_path (bw_path p) = true)
    by (unfold is_image_path in *; by rewrite Hext).
  pose proof (process_image_mask fs p f img Hthere Hreadable Hdecoded) as Hfile.
  split; [done |]. split.
  - intros Hnone. by rewrite Hfile, Hnone.
  - intros saved Hsaved new_filepath fs2. subst new_filepath fs2.
    rewrite Hsaved in Hfile. split; [done |].
    rewrite (on_created_image g _ _ _ Hmask Hfile).
    rewrite get_new_filename_image by done. cbn [fst snd]. rewrite Hdir, Hext.
    split; [done |]. unfold rename_file. rewrite Hfile. apply lookup_insert_eq.
Qed.

End WithGeometry.

Lemma image_event_is_processed_witness :
  let f := {| readable := true; data := ImageData [[0; 0]; [0; 0]] |} in
  rename_file {[ ("in", "Photo.JPG") := f ]} ("in", "Photo.JPG") ("in", "image_1.jpg")
    !! ("in", "image_1.jpg") = Some f ∧
  rename_file {[ ("in", "Photo.JPG") := f ]} ("in", "Photo.JPG") ("in", "image_1.jpg")
    !! ("in", "Photo.JPG") = None.
Proof.
  intros f.
  destruct (@image_event_is_processed ExtractorSpec.no_contours lossless initial
              {[ ("in", "Photo.JPG") := f ]} ("in", "Photo.JPG") f)
    as (_ & Hnew & Hold & _); [reflexivity | reflexivity |].
  split; [exact Hnew |]. apply Hold. intros [=].
Defined.

Lemma non_images_are_not_processed_witness :
  let f := {| readable := true; data := TextData "12, 7" |} in
  @on_created ExtractorSpec.no_contours lossless initial {[ ("in", "old.txt") := f ]}
    (Watch.file_created "in" "old.txt") true
  = (initial, {[ ("in", "coords_0.txt") := f ]}, IgnoredNonImage ("in", "coords_0.txt")).
Proof.
  intros f.
  destruct (@non_images_are_not_processed ExtractorSpec.no_contours lossless initial
              {[ ("in", "old.txt") := f ]} ("in", "old.txt") f)
    as (Hrun & _); [reflexivity | reflexivity |].
  etransitivity; [exact Hrun | reflexivity].
Defined.

Lemma failed_rename_uses_a_number_witness :
  @on_created ExtractorSpec.no_contours lossless initial ∅
    (Watch.file_created "in" "a.png") false
  = ({| image_counter := 1; text_counter := 0 |}, ∅, RenameError).
Proof.
  exact (proj1 (@failed_rename_uses_a_number ExtractorSpec.no_contours lossless initial ∅
                  ("in", "a.png") ("in", "b.png") eq_refl eq_refl)).
Defined.

Lemma saved_mask_is_processed_again_witness :
  let f := {| readable := true; data := ImageData [[0; 200]; [200; 0]] |} in
  let fs : gmap path file := {[ ("in", "image_1.jpg") := f ]} in
  (@ImageProcessing.process_image ExtractorSpec.no_contours lossy fs ("in", "image_1.jpg")).1
    !! ("in", "image_1_bw.jpg")
  = Some (written [[254; 1]; [1; 254]]) ∧
  is_image_path ("in", "image_1_bw.jpg") = true.
Proof.
  intros f fs.
  destruct (@saved_mask_is_processed_again ExtractorSpec.no_contours lossy initial fs
              ("in", "image_1.jpg") f [[0; 200]; [200; 0]])
    as (Hmask & _ & Hsaved); [reflexivity.. |].
  destruct (Hsaved [[254; 1]; [1; 254]]) as (Hfile & _); [reflexivity |].
  split; [exact Hfile | exact Hmask].
Defined.

End ImageProcessingMore.

(** ** The largest-contour variant of [process_image] *)

Module LargestContourMore.
Import Extractor LargestContour NaiveParser CoordsSpec.

(** [max(contours, key=...)] returns an element of the list whose key no
    other element exceeds. *)
Lemma max_by_spec (key : contour -> Q) (rest : list contour) : ∀ best,
  (max_by key best rest = best ∨ max_by key best rest ∈ rest) ∧
  (key best <= key (max_by key best rest))%Q ∧
  (∀ c, c ∈ rest -> (key c <= key (max_by key best rest))%Q).
Proof.
  induction rest as [|x rest IH]; intros best; simpl.
  - split; [by left |]. split; [apply Qle_refl |]. intros c Hc. by apply elem_of_nil in Hc.
  - destruct (Qle_bool (key x) (key best)) eqn:Hle.
    + apply Qle_bool_iff in Hle. destruct (IH best) as (Hin & Hbest & Hrest).
      split; [destruct Hin; [by left | right; by apply elem_of_cons; right] |].
      split; [done |].
      intros c [->|Hc]%elem_of_cons; [by eapply Qle_trans | by apply Hrest].
    + assert (Hlt : (key best <= key x)%Q).
      { apply Qlt_le_weak, Qnot_le_lt. intros H. apply Qle_bool_iff in H. congruence. }
      destruct (IH x) as (Hin & Hx & Hrest).
      split; [right; apply elem_of_cons; destruct Hin as [->|]; [by left | by right] |].
      split; [by eapply Qle_trans |].
      intros c [->|Hc]%elem_of_cons; [done | by apply Hrest].
Qed.

(** A text of one line without line end is read as that line. *)
Lemma lines_single (l : string) :
  Py.all_chars not_newline l = true -> l ≠ "" -> lines l = [l].
Proof.
  induction l as [|c l IH]; [done |]. simpl.
  intros [Hc Hl]%andb_prop _. unfold not_newline in Hc.
  apply negb_true_iff in Hc. rewrite Hc.
  destruct l as [|c' l']; [done |]. by rewrite IH.
Qed.

Lemma parse_center_text (center : Z * Z) : parse (center_text center) = Some [center].
Proof.
  unfold parse. change (center_text center) with (line_text center).
  rewrite lines_single.
  - simpl. by rewrite CoordsFacts.parse_line_text.
  - apply CoordsFacts.line_text_no_newline.
  - unfold line_text. intros Hempty.
    assert (Hlen : String.length (Py.str center.1 +:+ ", " +:+ Py.str center.2) = 0%nat)
      by (by rewrite Hempty).
    revert Hlen. generalize (Py.str center.1). intros s. by induction s.
Qed.

Section WithGeometry.
Context `{G : Geometry} `{A : ContourArea}.

(** X15. In the largest-contour variant, when contours are found the one
    chosen is a contour of the list with the largest area; if its zeroth
    moment is zero nothing is written, otherwise its center, cut to
    integers, is written as one line without line end, which the naive
    reader reads back as that one center. *)
Theorem largest_contour_center (fs : gmap path file) (filepath : path) (f : file)
    (img : image) (c : contour) (rest : list contour)
    (Hfile : fs !! filepath = Some f) (Hreadable : readable f = true)
    (Hdecoded : imread f = Some img)
    (Hcontours : findContours (zero_border (segment img)) = c :: rest) :
  let largest := max_by contourArea c rest in
  let M := moments largest in
  largest ∈ c :: rest ∧
  (∀ c', c' ∈ c :: rest -> (contourArea c' <= contourArea largest)%Q) ∧
  (Qeq_bool (m00 M) 0 = true -> process_image fs filepath = (fs, ZeroArea)) ∧
  (Qeq_bool (m00 M) 0 = false ->
     let center := (int_of_float (m10 M / m00 M), int_of_float (m01 M / m00 M)) in
     (process_image fs filepath).2 = CenterSaved (coords_path filepath) center ∧
     read_coords (process_image fs filepath).1 (coords_path filepath) = Some [center] ∧
     ∀ q, q ≠ coords_path filepath -> (process_image fs filepath).1 !! q = fs !! q).
Proof.
  intros largest M. subst largest M.
  destruct (max_by_spec contourArea rest c) as (Hin & Hbest & Hrest).
  split; [apply elem_of_cons; destruct Hin as [->|]; [by left | by right] |].
  split; [intros c' [->|Hc']%elem_of_cons; [done | by apply Hrest] |].
  unfold process_image. rewrite Hfile, Hreadable, Hdecoded, Hcontours. simpl.
  split; [by intros -> |]. intros Hzero. rewrite Hzero.
  rewrite !ExtractorFacts.truediv_nonzero by done. simpl.
  split; [done |]. split.
  - unfold read_coords. rewrite lookup_insert_eq. simpl. apply parse_center_text.
  - intros q Hq. by apply lookup_insert_ne.
Qed.

(** X19. The largest-contour variant writes nothing unless it ends with
    [CenterSaved]: a missing, unreadable or undecodable file, a mask
    without contours and a largest contour of no area all leave the file
    system as it was, and the arithmetic never sends it to its exception
    handler. *)
Theorem largest_contour_effects (fs : gmap path file) (filepath : path) :
  (process_image fs filepath).2 ≠ ProcessingError ∧
  ((∃ center, (process_image fs filepath).2 = CenterSaved (coords_path filepath) center)
   ∨ (process_image fs filepath).1 = fs) ∧
  (∀ f img, fs !! filepath = Some f -> readable f = true -> imread f = Some img ->
     findContours (zero_border (segment img)) = [] ->
     process_image fs filepath = (fs, NoContours)).
Proof.
  unfold process_image. split; [|split].
  - destruct (fs !! filepath) as [f|]; [|done].
    destruct (negb (readable f)); [done |].
    destruct (imread f) as [img|]; [|done].
    destruct (findContours _) as [|c rest]; [done |].
    destruct (Qeq_bool _ 0) eqn:Hzero; [done |].
    by rewrite !ExtractorFacts.truediv_nonzero by done.
  - destruct (fs !! filepath) as [f|]; [|by right].
    destruct (negb (readable f)); [by right |].
    destruct (imread f) as [img|]; [|by right].
    destruct (findContours _) as [|c rest]; [by right |].
    destruct (Qeq_bool _ 0) eqn:Hzero; [by right |].
    rewrite !ExtractorFacts.truediv_nonzero by done. left. by eexists.
  - intros f img -> Hr -> ->. by rewrite Hr.
Qed.

End WithGeometry.

Lemma largest_contour_center_witness :
  let fs : gmap path file :=
    {[ ("copied_images", "4_grayscale.png") :=
         {| readable := true; data := ImageData [[0; 0; 0]; [0; 0; 0]; [0; 0; 0]] |} ]} in
  read_coords
    (@process_image ExtractorSpec.sample_geometry (λ cnt, inject_Z (Z.of_nat (length cnt)))
       fs ("copied_images", "4_grayscale.png")).1
    ("copied_images", "4_coords.txt")
  = Some [(1, 1)].
Proof.
  intros fs.
  destruct (@largest_contour_center ExtractorSpec.sample_geometry
              (λ cnt, inject_Z (Z.of_nat (length cnt))) fs
              ("copied_images", "4_grayscale.png")
              {| readable := true; data := ImageData [[0; 0; 0]; [0; 0; 0]; [0; 0; 0]] |}
              [[0; 0; 0]; [0; 0; 0]; [0; 0; 0]]
              ExtractorSpec.dart [[(0, 0); (1, 0)]])
    as (_ & _ & _ & Hsaved); [reflexivity.. |].
  destruct Hsaved as (_ & Hread & _); [reflexivity |]. exact Hread.
Defined.

Lemma largest_contour_effects_witness :
  let fs : gmap path file :=
    {[ ("copied_images", "4_grayscale.png") :=
         {| readable := true; data := ImageData [[0; 0; 0]; [0; 0; 0]; [0; 0; 0]] |} ]} in
  @process_image ExtractorSpec.no_contours (λ cnt, 0%Q) fs ("copied_images", "4_grayscale.png")
  = (fs, NoContours).
Proof.
  intros fs.
  destruct (@largest_contour_effects ExtractorSpec.no_contours (λ cnt, 0%Q) fs
              ("copied_images", "4_grayscale.png")) as (_ & _ & Hnone).
  apply (Hnone {| readable := true; data := ImageData [[0; 0; 0]; [0; 0; 0]; [0; 0; 0]] |}
               [[0; 0; 0]; [0; 0; 0]; [0; 0; 0]]); reflexivity.
Defined.

End LargestContourMore.
